(** * Webhook relay: signature verifier, payload store and handlers

    A shallow embedding of the TypeScript backend
    (utils/signature, store/fileStore, routes/webhooks,
    routes/conversations), of the polling of the viewer (ui/App), and
    the properties of its specification.

    Conventions of the embedding.
    - A JavaScript string is a [string]: a sequence of code units, here
      those below 256 (HTTP header values reach Node as Latin-1 text;
      a text with a code unit from 256 on is outside the model).
    - A [Buffer] is a [list byte].
    - A JavaScript number is a [number]: NaN, an infinity, or a finite
      value carried as its exact rational; [now - ts] is computed
      exactly (rounding of IEEE-754 doubles is outside the model). The
      numbers of a JSON document are those with an integer value.
    - [Date.now()] is an explicit argument, in milliseconds.
    - A promise that rejects, or a statement that throws, is a [Throw]
      of the [result] type, or [None] for a conversion; the file
      system is an explicit state. *)

From Stdlib Require Import ZArith QArith Qabs Qminmax Qpower String Ascii List Lia Lqa.
From Stdlib.Strings Require Import Byte.
From stdpp Require Import gmap strings list sorting.

Local Open Scope Z_scope.

(** ** Buffers and hexadecimal text *)

Module Buffer.

Definition t := list byte.

Definition byte_of_N (n : N) : byte := byte_of_ascii (ascii_of_N n).
Definition byte_of_Z (z : Z) : byte := byte_of_N (Z.to_N (z mod 256)).
Definition Z_of_byte (b : byte) : Z := Z.of_N (Byte.to_N b).

(** [Buffer.from(s, 'utf8')] on a string of 8-bit code units: a code
    unit below 128 is one byte, any other one takes two. *)
Definition utf8_unit (c : ascii) : list byte :=
  let n := N_of_ascii c in
  if (n <? 128)%N then [byte_of_N n]
  else [byte_of_N (192 + n / 64); byte_of_N (128 + n mod 64)].

Fixpoint from_utf8 (s : string) : t :=
  match s with
  | EmptyString => []
  | String c s' => utf8_unit c ++ from_utf8 s'
  end.

Definition hex_digit (n : N) : ascii :=
  if (n <? 10)%N then ascii_of_N (48 + n) else ascii_of_N (87 + n).

(** [buf.toString('hex')] and [hmac.digest('hex')]: two lower-case
    digits per byte. *)
Fixpoint to_hex (l : t) : string :=
  match l with
  | [] => EmptyString
  | b :: l' =>
      let n := Byte.to_N b in
      String (hex_digit (n / 16)) (String (hex_digit (n mod 16)) (to_hex l'))
  end.

(** Node's [unhex]: digits and both cases of a..f. *)
Definition unhex (c : ascii) : option N :=
  let n := N_of_ascii c in
  if ((48 <=? n) && (n <=? 57))%N then Some (n - 48)%N
  else if ((97 <=? n) && (n <=? 102))%N then Some (n - 87)%N
  else if ((65 <=? n) && (n <=? 70))%N then Some (n - 55)%N
  else None.

(** [Buffer.from(s, 'hex')]: pairs of digits are decoded from the
    left; decoding stops at the first pair that is not two hex digits
    and a trailing single character is dropped. Never throws. *)
Fixpoint from_hex (s : string) : t :=
  match s with
  | String c1 (String c2 rest) =>
      match unhex c1, unhex c2 with
      | Some hi, Some lo => byte_of_N (16 * hi + lo) :: from_hex rest
      | _, _ => []
      end
  | _ => []
  end.

End Buffer.

(** ** SHA-256 (FIPS 180-4) and HMAC (RFC 2104), the [crypto] primitives *)

Module Crypto.

Definition mask32 : Z := 0xffffffff.
Definition w32 (x : Z) : Z := Z.land x mask32.
Definition add32 (x y : Z) : Z := w32 (x + y).
Definition rotr (n x : Z) : Z :=
  Z.lor (Z.shiftr x n) (w32 (Z.shiftl x (32 - n))).

Definition Ch (x y z : Z) : Z :=
  Z.lxor (Z.land x y) (Z.land (Z.lxor x mask32) z).
Definition Maj (x y z : Z) : Z :=
  Z.lxor (Z.lxor (Z.land x y) (Z.land x z)) (Z.land y z).
Definition Sigma0 (x : Z) : Z := Z.lxor (Z.lxor (rotr 2 x) (rotr 13 x)) (rotr 22 x).
Definition Sigma1 (x : Z) : Z := Z.lxor (Z.lxor (rotr 6 x) (rotr 11 x)) (rotr 25 x).
Definition sigma0 (x : Z) : Z := Z.lxor (Z.lxor (rotr 7 x) (rotr 18 x)) (Z.shiftr x 3).
Definition sigma1 (x : Z) : Z := Z.lxor (Z.lxor (rotr 17 x) (rotr 19 x)) (Z.shiftr x 10).

(** The constants are fractional parts of roots of the first primes
    (FIPS 180-4, 4.2.2 and 5.3.3): for a prime [p] and a degree [k],
    the first thirty-two bits of the fractional part of the [k]-th
    root of [p]. *)
Definition is_prime (n : Z) : bool :=
  forallb (fun d => negb (n mod d =? 0)) (List.map Z.of_nat (seq 2 (Z.to_nat n - 2))).

Definition primes (count : nat) : list Z :=
  firstn count (List.filter is_prime (List.map Z.of_nat (seq 2 400))).

(** The largest [r] below [2 ^ bits] with [r ^ k <= n], bit by bit. *)
Fixpoint root_floor (k n : Z) (bits : nat) (r : Z) : Z :=
  match bits with
  | O => r
  | S b =>
      let r' := r + 2 ^ Z.of_nat b in
      root_floor k n b (if r' ^ k <=? n then r' else r)
  end.

Definition root_fraction (k p : Z) : Z :=
  w32 (root_floor k (p * 2 ^ (32 * k)) 40 0).

Definition K256 : list Z := List.map (root_fraction 3) (primes 64).

Definition H256 : list Z := List.map (root_fraction 2) (primes 8).

(** Big-endian bytes of a word of [n] bytes. *)
Fixpoint be_bytes (n : nat) (x : Z) : list Z :=
  match n with
  | O => []
  | S n' => Z.land (Z.shiftr x (8 * Z.of_nat n')) 0xff :: be_bytes n' x
  end.

Definition pad (msg : list Z) : list Z :=
  let len := Z.of_nat (length msg) in
  let zeros := Z.to_nat ((55 - len) mod 64) in
  msg ++ [0x80] ++ repeat 0 zeros ++ be_bytes 8 (8 * len).

Fixpoint words (fuel : nat) (l : list Z) : list Z :=
  match fuel, l with
  | S f, b0 :: b1 :: b2 :: b3 :: l' =>
      (Z.shiftl b0 24 + Z.shiftl b1 16 + Z.shiftl b2 8 + b3) :: words f l'
  | _, _ => []
  end.

(** The message schedule, most recent word first. *)
Fixpoint schedule (n : nat) (w : list Z) : list Z :=
  match n with
  | O => w
  | S n' =>
      let w2 := nth 1 w 0 in
      let w7 := nth 6 w 0 in
      let w15 := nth 14 w 0 in
      let w16 := nth 15 w 0 in
      schedule n' (add32 (add32 (sigma1 w2) w7) (add32 (sigma0 w15) w16) :: w)
  end.

Definition round (s : list Z) (kw : Z * Z) : list Z :=
  match s with
  | [a; b; c; d; e; f; g; h] =>
      let t1 := add32 (add32 (add32 h (Sigma1 e)) (add32 (Ch e f g) (fst kw))) (snd kw) in
      let t2 := add32 (Sigma0 a) (Maj a b c) in
      [add32 t1 t2; a; b; c; add32 d t1; e; f; g]
  | _ => s
  end.

Definition compress (h : list Z) (block : list Z) : list Z :=
  let w := rev (schedule 48 (rev (words 16 block))) in
  let s := fold_left round (combine K256 w) h in
  map (fun p => add32 (fst p) (snd p)) (combine h s).

Fixpoint blocks (fuel : nat) (h : list Z) (l : list Z) : list Z :=
  match fuel with
  | O => h
  | S f =>
      match l with
      | [] => h
      | _ => blocks f (compress h (firstn 64 l)) (skipn 64 l)
      end
  end.

Definition sha256_Z (msg : list Z) : list Z :=
  let p := pad msg in
  flat_map (be_bytes 4) (blocks (length p) H256 p).

Definition sha256 (msg : Buffer.t) : Buffer.t :=
  map Buffer.byte_of_Z (sha256_Z (map Buffer.Z_of_byte msg)).

(** [crypto.createHmac('sha256', key)] followed by [update]s whose
    concatenation is [msg], and [digest()]. *)
Definition hmac_sha256 (key msg : Buffer.t) : Buffer.t :=
  let k0 := if (64 <? length key)%nat then sha256 key else key in
  let k := map Buffer.Z_of_byte k0 ++ repeat 0 (64 - length k0) in
  let ipad := map (fun x => Buffer.byte_of_Z (Z.lxor x 0x36)) k in
  let opad := map (fun x => Buffer.byte_of_Z (Z.lxor x 0x5c)) k in
  sha256 (opad ++ sha256 (ipad ++ msg)).

End Crypto.

(** ** JavaScript values *)

Module JS.

(** A number: [Finite q] carries the exact value. *)
Inductive number :=
| NaN
| Infinity (negative : bool)
| Finite (q : Q).

(** [Number.isFinite]. *)
Definition isFinite (x : number) : bool :=
  match x with Finite _ => true | _ => false end.

(** String methods. *)
Definition isEmpty (s : string) : bool :=
  match s with EmptyString => true | _ => false end.

Definition startsWith (s p : string) : bool := String.prefix p s.

Fixpoint drop (n : nat) (s : string) : string :=
  match n, s with
  | S n', String _ s' => drop n' s'
  | _, _ => s
  end.

Fixpoint includes (s needle : string) : bool :=
  String.prefix needle s ||
  match s with
  | EmptyString => false
  | String _ s' => includes s' needle
  end.

Definition endsWith (s suffix : string) : bool :=
  (String.length suffix <=? String.length s)%nat &&
  String.eqb (drop (String.length s - String.length suffix) s) suffix.

(** The code unit 0, which Node's [fs] refuses in a path. *)
Definition has_NUL (s : string) : bool := includes s (String (ascii_of_N 0) EmptyString).

#[local] Set Warnings "-register-all".

(** The value of [JSON.parse]. [JNum n] is the number a document
    writes as the integer [n], that is the double nearest to [n]
    (a fraction has no value here); an object is the list of its own
    properties. *)
Inductive json :=
| JNull
| JBool (b : bool)
| JNum (n : Z)
| JStr (s : string)
| JArr (items : list json)
| JObj (fields : list (string * json)).

(** The host's built-ins that the code calls: [Number(s)],
    [JSON.parse(s)] ([None] when it throws a SyntaxError),
    [JSON.stringify(v, null, 2)], [buf.toString('utf8')], and
    [process.cwd()] as the segments of an absolute path, which as the
    path of a directory holds no NUL. *)
Class Runtime := {
  Number : string -> number;
  JSON_parse : string -> option json;
  JSON_stringify : json -> string;
  toString_utf8 : list byte -> string;
  process_cwd : list string;
  process_cwd_path : forallb (fun s => negb (has_NUL s)) process_cwd = true
}.

(** [v.key] for a value that is neither null nor undefined. The keys
    read by the code ([type], [data], [conversation_id],
    [event_timestamp], [transcript], [summary], [role], [message]) are
    inherited by no primitive and no array, so only an object can hold
    them. *)
Fixpoint assoc (key : string) (fields : list (string * json)) : option json :=
  match fields with
  | [] => None
  | (k, v) :: rest => if String.eqb k key then Some v else assoc key rest
  end.

Definition prop (key : string) (v : json) : option json :=
  match v with
  | JObj fields => assoc key fields
  | _ => None
  end.

(** [v?.key], with [None] for undefined. *)
Definition opt_prop (key : string) (v : option json) : option json :=
  match v with
  | None | Some JNull => None
  | Some v' => prop key v'
  end.

(** [v ?? d]. *)
Definition nullish_or (v : option json) (d : json) : json :=
  match v with
  | None | Some JNull => d
  | Some v' => v'
  end.

(** [!v] on the value of [JSON.parse] or null. *)
Definition falsy (v : json) : bool :=
  match v with
  | JNull | JBool false | JNum 0 | JStr EmptyString => true
  | _ => false
  end.

(** Decimal numerals. [fuel] bounds the number of digits. *)
Definition digit (n : N) : ascii := ascii_of_N (48 + n).

Fixpoint digits_of (fuel : nat) (n : N) (acc : string) : string :=
  match fuel with
  | O => acc
  | S f =>
      let acc' := String (digit (n mod 10)) acc in
      if (n <? 10)%N then acc' else digits_of f (n / 10) acc'
  end.

Definition decimal (n : N) : string :=
  digits_of (S (N.to_nat (N.log2 n))) n EmptyString.

Definition decimal_Z (z : Z) : string :=
  if z <? 0 then String "-" (decimal (Z.to_N (- z))) else decimal (Z.to_N z).

(** The double nearest to a natural number, the one with the even
    significand on a tie; [None] when the number is beyond the
    doubles. *)
Definition to_double (n : N) : option N :=
  let bits := N.size n in
  if (bits <=? 53)%N then Some n
  else
    let shift := (bits - 53)%N in
    let q := N.shiftr n shift in
    let r := (n - N.shiftl q shift)%N in
    let half := N.shiftl 1 (shift - 1) in
    let q' := if (half <? r)%N || ((r =? half)%N && N.odd q) then (q + 1)%N else q in
    let x := N.shiftl q' shift in
    if (x <? 2 ^ 1024)%N then Some x else None.

Definition is_double (v x : N) : bool :=
  match to_double v with
  | Some y => (y =? x)%N
  | None => false
  end.

(** The digits of [Number::toString] for a double [x] with [D]
    decimal digits: the least number [k] of digits such that some
    [s * 10^(n-k)] converts to [x], and of the two candidates around
    [x] the one closer to it, the even one on a tie. The result is
    [(s, n)]. *)
Fixpoint shortest (fuel : nat) (x D k : N) : N * N :=
  match fuel with
  | O => (x, D)
  | S f =>
      let e := (10 ^ (D - k))%N in
      let lo := (x / e)%N in
      let hi := (lo + 1)%N in
      let up := if (hi =? 10 ^ k)%N then (1%N, (D + 1)%N) else (hi, D) in
      match is_double (lo * e) x, is_double (hi * e) x with
      | true, true =>
          let below := (x - lo * e)%N in
          let above := (hi * e - x)%N in
          if (below <? above)%N then (lo, D)
          else if (above <? below)%N then up
          else if N.even lo then (lo, D) else up
      | true, false => (lo, D)
      | false, true => up
      | false, false => shortest f x D (k + 1)
      end
  end.

Fixpoint zeros (n : nat) : string :=
  match n with
  | O => EmptyString
  | S n' => String "0" (zeros n')
  end.

(** [Number::toString] of a double that is a natural number: plain
    digits up to 21 of them, the exponent form beyond. *)
Definition double_text (x : N) : string :=
  let D := N.of_nat (String.length (decimal x)) in
  let sn := shortest (N.to_nat D) x D 1 in
  let ds := decimal (fst sn) in
  let n := snd sn in
  if (n <=? 21)%N then ds +:+ zeros (N.to_nat n - String.length ds)
  else
    match ds with
    | String d EmptyString => String d ("e+" +:+ decimal (n - 1))
    | String d rest => String d ("." +:+ rest +:+ "e+" +:+ decimal (n - 1))
    | EmptyString => EmptyString
    end.

(** [String(x)] for the number written [z]. An integer up to 2^53 in
    magnitude is a double and its shortest digits are its decimal
    numeral. *)
Definition number_text (z : Z) : string :=
  if Z.abs z <=? 2 ^ 53 then decimal_Z z
  else
    let sign := if z <? 0 then "-" else EmptyString in
    match to_double (Z.to_N (Z.abs z)) with
    | Some x => sign +:+ double_text x
    | None => sign +:+ "Infinity"
    end.

Fixpoint join (sep : string) (l : list string) : string :=
  match l with
  | [] => EmptyString
  | [s] => s
  | s :: rest => s +:+ sep +:+ join sep rest
  end.

(** [String(v)] and the conversion of a template literal; [None] when
    it throws a TypeError. An array is joined with commas, null
    elements giving the empty string. An object converts through the
    inherited [toString] to [[object Object]]; an own property named
    [toString] hides that method, its value is not callable, and the
    conversion throws. *)
Fixpoint ToString (v : json) : option string :=
  match v with
  | JNull => Some "null"
  | JBool true => Some "true"
  | JBool false => Some "false"
  | JNum n => Some (number_text n)
  | JStr s => Some s
  | JArr items =>
      match
        (fix elements (l : list json) : option (list string) :=
           match l with
           | [] => Some []
           | x :: l' =>
               match match x with JNull => Some EmptyString | _ => ToString x end,
                     elements l' with
               | Some s, Some ss => Some (s :: ss)
               | _, _ => None
               end
           end) items
      with
      | Some parts => Some (join "," parts)
      | None => None
      end
  | JObj fields =>
      match assoc "toString" fields with
      | Some _ => None
      | None => Some "[object Object]"
      end
  end.

(** [Array.prototype.slice(0, k)]. *)
Definition slice0 {A} (l : list A) (k : Z) : list A :=
  if k <? 0 then firstn (Z.to_nat (Z.of_nat (length l) + k)) l
  else firstn (Z.to_nat k) l.

(** [Array.prototype.sort()] without a comparator orders strings by
    code units; [String.leb] is that order. *)
Definition str_le (s1 s2 : string) : Prop := String.leb s1 s2 = true.

#[global] Instance str_le_dec (s1 s2 : string) : Decision (str_le s1 s2).
Proof. unfold str_le. apply _. Defined.

Definition sort (l : list string) : list string := merge_sort str_le l.

End JS.

(** ** utils/signature *)

Module Signature.

Import JS.

Record VerifyArgs := {
  rawBody : Buffer.t;
  signature : string;
  timestamp : string;
  secret : string;
  maxSkewSeconds : option Z
}.

(** [crypto.timingSafeEqual] on two buffers of one length: every pair
    of bytes is folded into an accumulator and the verdict is read off
    at the end. The second component counts the pairs visited. *)
Fixpoint timingSafeEqual_acc (a b : Buffer.t) (acc : N) (steps : nat) : N * nat :=
  match a, b with
  | x :: a', y :: b' =>
      timingSafeEqual_acc a' b' (N.lor acc (N.lxor (Byte.to_N x) (Byte.to_N y))) (S steps)
  | _, _ => (acc, steps)
  end.

Definition timingSafeEqual (a b : Buffer.t) : bool * nat :=
  let r := timingSafeEqual_acc a b 0%N 0%nat in
  ((fst r =? 0)%N, snd r).

(** The return statement a call leaves through. *)
Inductive exit :=
| MissingField      (* line 13 *)
| NotFinite         (* line 16 *)
| Stale             (* line 18 *)
| LengthMismatch    (* line 29 *)
| Compared.         (* line 30 *)

Record run := {
  left_at : exit;
  returned : bool;
  byte_steps : nat
}.

(** [Math.abs(now - ts) > maxSkewSeconds]. *)
Definition skewed (now : Z) (ts : Q) (maxSkew : Z) : bool :=
  negb (Qle_bool (Qabs (inject_Z now - ts)) (inject_Z maxSkew)).

(** The bytes the digest is taken over: [hmac.update(`${timestamp}.`)]
    then [hmac.update(rawBody)]. *)
Definition signed_bytes (timestamp : string) (rawBody : Buffer.t) : Buffer.t :=
  Buffer.from_utf8 (timestamp +:+ ".") ++ rawBody.

Definition expected_digest (args : VerifyArgs) : Buffer.t :=
  Crypto.hmac_sha256 (Buffer.from_utf8 (secret args))
    (signed_bytes (timestamp args) (rawBody args)).

Definition provided_digest (signature : string) : string :=
  if startsWith signature "sha256=" then drop (String.length "sha256=") signature
  else signature.

Definition verifySignature_run {RT : Runtime} (args : VerifyArgs) (Date_now : Z) : run :=
  let maxSkew := default (5 * 60) (maxSkewSeconds args) in
  if isEmpty (signature args) || isEmpty (timestamp args) || isEmpty (secret args)
  then {| left_at := MissingField; returned := false; byte_steps := 0 |}
  else
    match Number (timestamp args) with
    | Finite ts =>
        let now := Date_now / 1000 in
        if skewed now ts maxSkew
        then {| left_at := Stale; returned := false; byte_steps := 0 |}
        else
          let expected := Buffer.to_hex (expected_digest args) in
          let provided := provided_digest (signature args) in
          let a := Buffer.from_hex expected in
          let b := Buffer.from_hex provided in
          if negb (length a =? length b)%nat
          then {| left_at := LengthMismatch; returned := false; byte_steps := 0 |}
          else
            let r := timingSafeEqual a b in
            {| left_at := Compared; returned := fst r; byte_steps := snd r |}
    | _ => {| left_at := NotFinite; returned := false; byte_steps := 0 |}
    end.

Definition verifySignature {RT : Runtime} (args : VerifyArgs) (Date_now : Z) : bool :=
  returned (verifySignature_run args Date_now).

End Signature.

(** ** Exceptions and the file system *)

Module Fs.

(** What is thrown: the errors of the file system, Node's refusal of
    an argument, a SyntaxError of [JSON.parse] and a TypeError of a
    conversion. *)
Inductive error :=
| ENOENT | ENOTDIR | EISDIR | EEXIST
| ERR_INVALID_ARG_VALUE
| SyntaxError
| TypeError.

Inductive result (A : Type) :=
| Ok (a : A)
| Throw (e : error).
Arguments Ok {A} a.
Arguments Throw {A} e.

(** A path is the list of its segments below the root. The state holds
    the regular files with their text and the directories. *)
Record t := {
  files : gmap (list string) string;
  dirs : gset (list string)
}.

(** A computation reads and updates the file system and returns or
    throws. *)
Definition M (A : Type) : Type := t -> result A * t.

#[global] Instance M_ret : MRet M := fun A a fs => (Ok a, fs).
#[global] Instance M_bind : MBind M := fun A B f m fs =>
  match m fs with
  | (Ok a, fs') => f a fs'
  | (Throw e, fs') => (Throw e, fs')
  end.

Definition throw {A} (e : error) : M A := fun fs => (Throw e, fs).

(** [try { m } catch (e) { h e }]. *)
Definition try_catch {A} (m : M A) (h : error -> M A) : M A := fun fs =>
  match m fs with
  | (Throw e, fs') => h e fs'
  | r => r
  end.

Fixpoint prefixes (p : list string) : list (list string) :=
  [] :: match p with
        | [] => []
        | s :: p' => List.map (cons s) (prefixes p')
        end.

Definition is_file (fs : t) (p : list string) : bool :=
  bool_decide (is_Some (files fs !! p)).

Definition is_dir (fs : t) (p : list string) : bool :=
  bool_decide (p ∈ dirs fs).

(** [fs.mkdir(p, { recursive: true })]: creates the missing
    directories down to [p]; fails when a regular file is in the way. *)
Definition mkdir_recursive (p : list string) : M unit := fun fs =>
  if is_file fs p then (Throw EEXIST, fs)
  else if existsb (is_file fs) (prefixes p) then (Throw ENOTDIR, fs)
  else (Ok (), {| files := files fs; dirs := dirs fs ∪ list_to_set (prefixes p) |}).

(** [fs.writeFile(p, text, 'utf8')]: creates or truncates the regular
    file [p]; its directory must exist. Node refuses a path with a
    NUL in it before the file system is asked. (The model has no
    limit on the length of a name, no permissions and no quota.) *)
Definition writeFile (p : list string) (text : string) : M unit := fun fs =>
  if existsb JS.has_NUL p then (Throw ERR_INVALID_ARG_VALUE, fs)
  else if is_dir fs p then (Throw EISDIR, fs)
  else if is_dir fs (removelast p) && negb (bool_decide (p = []))
  then (Ok (), {| files := <[p := text]> (files fs); dirs := dirs fs |})
  else (Throw ENOENT, fs).

(** [fs.readFile(p, 'utf8')]. *)
Definition readFile (p : list string) : M string := fun fs =>
  match files fs !! p with
  | Some text => (Ok text, fs)
  | None => (Throw (if is_dir fs p then EISDIR else ENOENT), fs)
  end.

Fixpoint strip_prefix (d q : list string) : option (list string) :=
  match d, q with
  | [], _ => Some q
  | x :: d', y :: q' => if decide (x = y) then strip_prefix d' q' else None
  | _ :: _, [] => None
  end.

Definition child_name (d q : list string) : option string :=
  match strip_prefix d q with
  | Some [name] => Some name
  | _ => None
  end.

(** [fs.readdir(d)]: the names of the files and directories directly
    in [d], in an order the caller cannot rely on. *)
Definition readdir (d : list string) : M (list string) := fun fs =>
  if is_dir fs d
  then (Ok (omap (child_name d) (elements (dom (files fs) ∪ dirs fs))), fs)
  else (Throw (if is_file fs d then ENOTDIR else ENOENT), fs).

End Fs.

(** ** [path.join] (POSIX) *)

Module Path.

(** The segments of a string cut at every slash. *)
Fixpoint split (s : string) : list string :=
  match s with
  | EmptyString => [EmptyString]
  | String c s' =>
      if Ascii.eqb c "/" then EmptyString :: split s'
      else match split s' with
           | seg :: rest => String c seg :: rest
           | [] => [String c EmptyString]
           end
  end.

(** Normalisation is lexical: an empty segment and [.] are dropped,
    [..] removes the segment before it and stays at the root. *)
Definition step (stack : list string) (seg : string) : list string :=
  if JS.isEmpty seg || String.eqb seg "." then stack
  else if String.eqb seg ".." then removelast stack
  else stack ++ [seg].

(** [path.join(base, rel)] for an absolute, normalised [base]. *)
Definition join (base : list string) (rel : string) : list string :=
  fold_left step (split rel) base.

(** A string that names one directory entry: [path.join] appends it
    as it is, and it holds no NUL. *)
Definition segment (s : string) : bool :=
  negb (JS.isEmpty s) && negb (String.eqb s ".") && negb (String.eqb s "..")
  && negb (JS.includes s "/") && negb (JS.has_NUL s).

End Path.

(** ** store/fileStore *)

Module FileStore.

Import JS Fs.

Section WithRuntime.
Context {RT : Runtime}.

Definition DATA_DIR : list string := process_cwd ++ ["backend"; "data"].

Definition ensureDir : M unit := mkdir_recursive DATA_DIR.

(** The class [[a-zA-Z0-9_-]]. *)
Definition safe_unit (c : ascii) : bool :=
  let n := N_of_ascii c in
  ((97 <=? n) && (n <=? 122) || (65 <=? n) && (n <=? 90) || (48 <=? n) && (n <=? 57)
   || (n =? 95) || (n =? 45))%N.

(** [s.replace(/[^a-zA-Z0-9_-]/g, '_')]. *)
Fixpoint sanitize (s : string) : string :=
  match s with
  | EmptyString => EmptyString
  | String c s' => String (if safe_unit c then c else "_"%char) (sanitize s')
  end.

(** The name, or [None] when one of the three conversions to a
    string throws a TypeError. *)
Definition getFilename (payload : json) (Date_now : Z) : option string :=
  let type := nullish_or (opt_prop "type" (Some payload)) (JStr "unknown") in
  let conversationId :=
    nullish_or (opt_prop "conversation_id" (opt_prop "data" (Some payload)))
      (JStr "no_conversation") in
  let eventTs := nullish_or (opt_prop "event_timestamp" (Some payload)) (JNum Date_now) in
  match ToString conversationId, ToString eventTs, ToString type with
  | Some conv, Some ts, Some ty =>
      let safeConv := sanitize conv in
      Some (ts +:+ "_" +:+ ty +:+ "_" +:+ safeConv +:+ ".json")
  | _, _, _ => None
  end.

Definition saveConversationPayload (payload : json) (Date_now : Z) : M unit :=
  _ ← ensureDir;
  match getFilename payload Date_now with
  | None => throw TypeError
  | Some filename =>
      let filePath := Path.join DATA_DIR filename in
      writeFile filePath (JSON_stringify payload)
  end.

(** The loop of [getAllConversations]: a file that does not parse is
    skipped, a file that cannot be read throws. *)
Fixpoint read_items (selected : list string) (items : list json) : M (list json) :=
  match selected with
  | [] => mret items
  | file :: rest =>
      content ← readFile (Path.join DATA_DIR file);
      read_items rest
        match JSON_parse content with
        | Some v => items ++ [v]
        | None => items
        end
  end.

Definition getAllConversations (limit : option Z) : M (list json) :=
  _ ← ensureDir;
  entries ← readdir DATA_DIR;
  let files := reverse (sort (List.filter (fun f => endsWith f ".json") entries)) in
  let limit := default 100 limit in
  let selected := slice0 files limit in
  read_items selected [].

(** The result is the parsed document, or [JNull] for JavaScript's
    null. *)
Definition getConversationById (conversationId : string) : M json :=
  _ ← ensureDir;
  entries ← readdir DATA_DIR;
  let matched :=
    reverse (sort (List.filter
      (fun f => includes f conversationId && endsWith f ".json") entries)) in
  match matched with
  | [] => mret JNull
  | first :: _ =>
      content ← readFile (Path.join DATA_DIR first);
      mret match JSON_parse content with
           | Some v => v
           | None => JNull
           end
  end.

End WithRuntime.

End FileStore.

(** ** routes/webhooks and routes/conversations *)

Module Routes.

Import JS Fs FileStore.

Record response := {
  status : Z;
  body : json
}.

(** An incoming POST: the two headers the handler reads, and the body
    left by the raw-body middleware. *)
Record request := {
  ElevenLabs_Signature : option string;
  ElevenLabs_Timestamp : option string;
  req_body : option Buffer.t
}.

(** [x || ''] on an optional string. *)
Definition or_empty (x : option string) : string := default EmptyString x.

Definition is_type (name : string) (v : option json) : bool :=
  match v with
  | Some (JStr s) => String.eqb s name
  | _ => false
  end.

Section WithRuntime.
Context {RT : Runtime}.

(** [POST /webhooks/elevenlabs]. [WEBHOOK_SECRET] is the variable of
    the process environment; one reading of the clock, [Date_now],
    serves the whole request. *)
Definition webhookRouter_post (WEBHOOK_SECRET : option string) (req : request)
    (Date_now : Z) : M response :=
  try_catch
    (let signature := or_empty (ElevenLabs_Signature req) in
     let timestamp := or_empty (ElevenLabs_Timestamp req) in
     let secret := or_empty WEBHOOK_SECRET in
     if isEmpty secret
     then mret {| status := 500;
                  body := JObj [("error", JStr "Webhook secret not configured")] |}
     else
       let rawBody := default [] (req_body req) in
       if negb (Signature.verifySignature
                  {| Signature.rawBody := rawBody;
                     Signature.signature := signature;
                     Signature.timestamp := timestamp;
                     Signature.secret := secret;
                     Signature.maxSkewSeconds := None |} Date_now)
       then mret {| status := 401; body := JObj [("error", JStr "Invalid signature")] |}
       else
         let textBody := toString_utf8 rawBody in
         match JSON_parse textBody with
         | None => throw SyntaxError
         | Some payload =>
             let payloadType := opt_prop "type" (Some payload) in
             if negb (is_type "post_call_transcription" payloadType)
                && negb (is_type "post_call_audio" payloadType)
             then
               _ ← saveConversationPayload payload Date_now;
               mret {| status := 202;
                       body := JObj [("status", JStr "ignored");
                                     ("reason", JStr "unknown_type")] |}
             else
               _ ← saveConversationPayload payload Date_now;
               mret {| status := 200; body := JObj [("ok", JBool true)] |}
         end)
    (fun _ => mret {| status := 400; body := JObj [("error", JStr "Invalid payload")] |}).

(** [GET /conversations]. *)
Definition conversationRouter_list : M response :=
  items ← getAllConversations (Some 50);
  mret {| status := 200; body := JObj [("items", JArr items)] |}.

(** [GET /conversations/:conversationId]. *)
Definition conversationRouter_get (conversationId : string) : M response :=
  item ← getConversationById conversationId;
  if falsy item
  then mret {| status := 404; body := JObj [("error", JStr "Not found")] |}
  else mret {| status := 200; body := item |}.

End WithRuntime.

End Routes.

(** ** ui/App: the polling of the transcript viewer *)

Module Viewer.

Import JS.

Record Turn := {
  role : string;
  message : string
}.

(** The state variables of the component and the content of the ref
    [dataCache]. *)
Record state := {
  summary : option string;
  turns : list Turn;
  loading : bool;
  error : option string;
  lastFetchTime : Z;
  retryCount : nat;
  dataCache : list Turn * option string
}.

Definition initial : state := {|
  summary := None;
  turns := [];
  loading := false;
  error := None;
  lastFetchTime := 0;
  retryCount := 0;
  dataCache := ([], None)
|}.

Definition maxRetries : nat := 3.

(** A thrown value: an [Error] with its message, or anything else. *)
Inductive thrown :=
| Error (message : string)
| NotError.

(** The response of [fetch]: [resp.ok], [resp.status], and what
    [resp.json()] settles to. *)
Record response := {
  ok : bool;
  status : Z;
  json_body : thrown + json
}.

(** The [try] block up to [data]: [fetch] rejects, the status is not
    ok, or the body does not parse. *)
Definition fetched (r : thrown + response) : thrown + json :=
  match r with
  | inl e => inl e
  | inr resp =>
      if negb (ok resp) then inl (Error ("Backend error " +:+ number_text (status resp)))
      else json_body resp
  end.

(** [typeof v === 'string'] on an optional value. *)
Definition as_string (v : option json) : option string :=
  match v with
  | Some (JStr s) => Some s
  | _ => None
  end.

(** [data?.transcript || []]. *)
Definition transcript (data : json) : json :=
  match opt_prop "transcript" (Some data) with
  | Some v => if falsy v then JArr [] else v
  | None => JArr []
  end.

(** The predicate of the filter: [t && typeof t.role === 'string']. *)
Definition is_turn (t : json) : bool :=
  negb (falsy t) && bool_decide (is_Some (as_string (prop "role" t))).

(** The function of the map:
    [{ role: String(t.role), message: String(t.message ?? '') }];
    [None] when a conversion throws a TypeError. *)
Definition to_turn (t : json) : option Turn :=
  match match prop "role" t with Some v => ToString v | None => Some "undefined" end,
        ToString (nullish_or (prop "message" t) (JStr EmptyString)) with
  | Some r, Some m => Some {| role := r; message := m |}
  | _, _ => None
  end.

Fixpoint map_turns (items : list json) : option (list Turn) :=
  match items with
  | [] => Some []
  | t :: rest =>
      match to_turn t, map_turns rest with
      | Some x, Some xs => Some (x :: xs)
      | _, _ => None
      end
  end.

Definition cleanTurns (data : json) : option (list Turn) :=
  match transcript data with
  | JArr items => map_turns (List.filter is_turn items)
  | _ => Some []
  end.

(** [typeof s === 'string' ? s : null] for [s = data?.summary ?? null]. *)
Definition cleanSummary (data : json) : option string :=
  as_string (opt_prop "summary" (Some data)).

(** [fetchLatest] up to its first [await]. *)
Definition fetchLatest_begin (st : state) : state := {|
  summary := summary st;
  turns := turns st;
  loading := true;
  error := None;
  lastFetchTime := lastFetchTime st;
  retryCount := retryCount st;
  dataCache := dataCache st
|}.

(** The TypeError of a conversion that throws; the text of its
    message is the engine's, here V8's. *)
Definition conversion_error : thrown :=
  Error "Cannot convert object to primitive value".

(** The [try] block up to the first update of the state: the turns
    and the summary to show, or what was thrown. *)
Definition attempt (r : thrown + response) : thrown + (list Turn * option string) :=
  match fetched r with
  | inl e => inl e
  | inr data =>
      match cleanTurns data with
      | Some clean => inr (clean, cleanSummary data)
      | None => inl conversion_error
      end
  end.

(** The rest of [fetchLatest], run when the request has settled.
    [seen] is the [retryCount] of the render that made the callback,
    [timestamp] the clock read before the request. *)
Definition fetchLatest_settle (seen : nat) (timestamp : Z) (r : thrown + response)
    (st : state) : state :=
  match attempt r with
  | inr (clean, s) => {|
      summary := s;
      turns := clean;
      loading := false;
      error := error st;
      lastFetchTime := timestamp;
      retryCount := 0;
      dataCache := (clean, s)
    |}
  | inl e => {|
      summary := if (maxRetries <=? seen)%nat then snd (dataCache st) else summary st;
      turns := if (maxRetries <=? seen)%nat then fst (dataCache st) else turns st;
      loading := false;
      error := Some match e with Error m => m | NotError => "Loading failed" end;
      lastFetchTime := lastFetchTime st;
      retryCount := S (retryCount st);
      dataCache := dataCache st
    |}
  end.

(** The delay given to [setInterval], in milliseconds. The two
    products below the cap, 15000 and 22500, are exact in floating
    point as well. *)
Definition interval (retryCount : nat) : Q :=
  if (0 <? retryCount)%nat
  then Qmin (10000 * (3 # 2) ^ Z.of_nat retryCount) 30000
  else 10000.

End Viewer.

(** ** A reference runtime

    An executable instance of the built-ins, used to run the code on
    concrete requests. [Number] reads the numeric literals of a
    string with their exact value; [JSON.parse] and [JSON.stringify]
    cover the documents whose numbers have integer values;
    [toString_utf8] decodes the texts whose code points are below
    256. *)

Module Reference.

Import JS.

Definition is_space (c : ascii) : bool :=
  let n := N_of_ascii c in
  ((n =? 32) || (9 <=? n) && (n <=? 13) || (n =? 160))%N.

Definition is_digit (c : ascii) : bool :=
  let n := N_of_ascii c in ((48 <=? n) && (n <=? 57))%N.

Fixpoint skip_space (s : string) : string :=
  match s with
  | String c s' => if is_space c then skip_space s' else s
  | EmptyString => s
  end.

(** A run of digits in base [base]: its value, the number of digits
    read, and the rest. *)
Definition digit_value (base : N) (c : ascii) : option N :=
  match Buffer.unhex c with
  | Some d => if (d <? base)%N then Some d else None
  | None => None
  end.

Fixpoint read_digits (base : N) (s : string) (acc : N) (count : nat) : N * nat * string :=
  match s with
  | String c s' =>
      match digit_value base c with
      | Some d => read_digits base s' (base * acc + d)%N (S count)
      | None => (acc, count, s)
      end
  | EmptyString => (acc, count, s)
  end.

(** The exponent part of a decimal literal, if there is one. *)
Definition read_exponent (s : string) : option (Z * string) :=
  match s with
  | String c s' =>
      if Ascii.eqb c "e" || Ascii.eqb c "E" then
        let signed :=
          match s' with
          | String "+" s'' => (false, s'')
          | String "-" s'' => (true, s'')
          | _ => (false, s')
          end in
        match read_digits 10 (snd signed) 0%N 0%nat with
        | (_, O, _) => None
        | (e, _, rest) => Some (if fst signed then - Z.of_N e else Z.of_N e, rest)
        end
      else Some (0, s)
  | EmptyString => Some (0, s)
  end.

(** A finite value, or the infinity it rounds to as a double. *)
Definition finite (negative : bool) (q : Q) : number :=
  if Qle_bool (inject_Z (2 ^ 1024 - 2 ^ 970)) q then Infinity negative
  else Finite (if negative then - q else q).

(** [StrUnsignedDecimalLiteral]: [Infinity], or digits with an
    optional fraction and exponent, one digit at least. *)
Definition unsigned_literal (s : string) (negative : bool) : number :=
  if String.prefix "Infinity" s
  then if isEmpty (skip_space (drop 8 s)) then Infinity negative else NaN
  else
    match read_digits 10 s 0%N 0%nat with
    | (int, n_int, s1) =>
        let frac :=
          match s1 with
          | String "." s2 => read_digits 10 s2 int 0%nat
          | _ => (int, 0%nat, s1)
          end in
        match frac with
        | (mantissa, n_frac, s3) =>
            if (n_int + n_frac =? 0)%nat then NaN
            else
              match read_exponent s3 with
              | Some (e, rest) =>
                  if isEmpty (skip_space rest) then
                    if (n_frac =? 0)%nat && (e =? 0)
                    then finite negative (inject_Z (Z.of_N mantissa))
                    else finite negative
                           (inject_Z (Z.of_N mantissa) * 10 ^ (e - Z.of_nat n_frac))
                  else NaN
              | None => NaN
              end
        end
    end.

(** [NonDecimalIntegerLiteral]: a prefix and digits of its base. *)
Definition prefixed_literal (base : N) (s : string) : number :=
  match read_digits base s 0%N 0%nat with
  | (_, O, _) => NaN
  | (n, _, rest) =>
      if isEmpty (skip_space rest) then finite false (inject_Z (Z.of_N n)) else NaN
  end.

Definition Number_literal (s : string) : number :=
  match skip_space s with
  | EmptyString => Finite 0
  | String "+" s' => unsigned_literal s' false
  | String "-" s' => unsigned_literal s' true
  | String "0" (String c s') as s0 =>
      if Ascii.eqb c "x" || Ascii.eqb c "X" then prefixed_literal 16 s'
      else if Ascii.eqb c "o" || Ascii.eqb c "O" then prefixed_literal 8 s'
      else if Ascii.eqb c "b" || Ascii.eqb c "B" then prefixed_literal 2 s'
      else unsigned_literal s0 false
  | s' => unsigned_literal s' false
  end.

(** [JSON.stringify(v, null, 2)]. *)
Definition NL : string := String (ascii_of_N 10) EmptyString.
Definition dquote : ascii := ascii_of_N 34.

Definition escape_unit (c : ascii) : string :=
  let n := N_of_ascii c in
  if (n =? 34)%N then String "\" (String dquote EmptyString)
  else if (n =? 92)%N then "\\"
  else if (n =? 8)%N then "\b"
  else if (n =? 12)%N then "\f"
  else if (n =? 10)%N then "\n"
  else if (n =? 13)%N then "\r"
  else if (n =? 9)%N then "\t"
  else if (n <? 32)%N
       then "\u00" +:+ String (Buffer.hex_digit (n / 16))
                        (String (Buffer.hex_digit (n mod 16)) EmptyString)
  else String c EmptyString.

Fixpoint escape (s : string) : string :=
  match s with
  | EmptyString => EmptyString
  | String c s' => escape_unit c +:+ escape s'
  end.

Definition quote (s : string) : string :=
  String dquote (escape s +:+ String dquote EmptyString).

Fixpoint stringify_at (indent : string) (v : json) : string :=
  let inner := (indent +:+ "  ")%string in
  match v with
  | JNull => "null"
  | JBool true => "true"
  | JBool false => "false"
  | JNum n =>
      match to_double (Z.to_N (Z.abs n)) with
      | Some _ => number_text n
      | None => "null"
      end
  | JStr s => quote s
  | JArr [] => "[]"
  | JArr items =>
      "[" +:+ NL +:+ inner
      +:+ join ("," +:+ NL +:+ inner) (List.map (stringify_at inner) items)
      +:+ NL +:+ indent +:+ "]"
  | JObj [] => "{}"
  | JObj fields =>
      "{" +:+ NL +:+ inner
      +:+ join ("," +:+ NL +:+ inner)
            (List.map (fun kv => quote (fst kv) +:+ ": " +:+ stringify_at inner (snd kv)) fields)
      +:+ NL +:+ indent +:+ "}"
  end.

Definition stringify (v : json) : string := stringify_at EmptyString v.

(** [JSON.parse], by recursive descent; [fuel] bounds the nesting and
    the length of every sequence. *)
Definition is_json_space (c : ascii) : bool :=
  let n := N_of_ascii c in ((n =? 32) || (n =? 9) || (n =? 10) || (n =? 13))%N.

Fixpoint skip_ws (s : string) : string :=
  match s with
  | String c s' => if is_json_space c then skip_ws s' else s
  | EmptyString => s
  end.

Fixpoint parse_digits (s : string) (acc : N) : N * string :=
  match s with
  | String c s' =>
      if is_digit c then parse_digits s' (10 * acc + (N_of_ascii c - 48))%N
      else (acc, s)
  | EmptyString => (acc, s)
  end.

(** A JSON number without its sign: an integer part with no leading
    zero, an optional fraction and exponent. Its value when that is
    an integer; a literal with another value has none in [json] and is
    refused. *)
Definition parse_unsigned (s : string) : option (N * string) :=
  let int :=
    match s with
    | String "0" s' => Some (0%N, s')
    | String c _ => if is_digit c then Some (parse_digits s 0%N) else None
    | EmptyString => None
    end in
  match int with
  | None => None
  | Some (n, s1) =>
      let frac :=
        match s1 with
        | String "." s2 =>
            match read_digits 10 s2 n 0%nat with
            | (_, O, _) => None
            | (m, k, s3) => Some (m, k, s3)
            end
        | _ => Some (n, 0%nat, s1)
        end in
      match frac with
      | None => None
      | Some (m, k, s3) =>
          match s3 with
          | String c _ =>
              if Ascii.eqb c "e" || Ascii.eqb c "E" then
                match read_exponent s3 with
                | Some (e, rest) =>
                    let scale := e - Z.of_nat k in
                    if 0 <=? scale then Some ((m * 10 ^ Z.to_N scale)%N, rest)
                    else if (m mod 10 ^ Z.to_N (- scale) =? 0)%N
                    then Some ((m / 10 ^ Z.to_N (- scale))%N, rest)
                    else None
                | None => None
                end
              else if (m mod 10 ^ N.of_nat k =? 0)%N
              then Some ((m / 10 ^ N.of_nat k)%N, s3)
              else None
          | EmptyString =>
              if (m mod 10 ^ N.of_nat k =? 0)%N
              then Some ((m / 10 ^ N.of_nat k)%N, s3)
              else None
          end
      end
  end.

Fixpoint parse_chars (s : string) : option (string * string) :=
  match s with
  | EmptyString => None
  | String c s' =>
      if Ascii.eqb c dquote then Some (EmptyString, s')
      else if Ascii.eqb c "\" then
        match s' with
        | String e s'' =>
            let unit :=
              if Ascii.eqb e dquote then Some dquote
              else if Ascii.eqb e "\" then Some "\"%char
              else if Ascii.eqb e "/" then Some "/"%char
              else if Ascii.eqb e "b" then Some (ascii_of_N 8)
              else if Ascii.eqb e "f" then Some (ascii_of_N 12)
              else if Ascii.eqb e "n" then Some (ascii_of_N 10)
              else if Ascii.eqb e "r" then Some (ascii_of_N 13)
              else if Ascii.eqb e "t" then Some (ascii_of_N 9)
              else None in
            match unit with
            | Some u =>
                match parse_chars s'' with
                | Some (str, rest) => Some (String u str, rest)
                | None => None
                end
            | None =>
                if Ascii.eqb e "u" then
                  match s'' with
                  | String "0" (String "0" (String h (String l s3))) =>
                      match Buffer.unhex h, Buffer.unhex l, parse_chars s3 with
                      | Some hi, Some lo, Some (str, rest) =>
                          Some (String (ascii_of_N (16 * hi + lo)) str, rest)
                      | _, _, _ => None
                      end
                  | _ => None
                  end
                else None
            end
        | EmptyString => None
        end
      else if (N_of_ascii c <? 32)%N then None
      else
        match parse_chars s' with
        | Some (str, rest) => Some (String c str, rest)
        | None => None
        end
  end.

(** A key that occurs again keeps its place and takes the new value. *)
Fixpoint define (key : string) (v : json) (fields : list (string * json))
  : list (string * json) :=
  match fields with
  | [] => [(key, v)]
  | (k, w) :: rest =>
      if String.eqb k key then (k, v) :: rest else (k, w) :: define key v rest
  end.

(** [buf.toString('utf8')] for a text of code points below 256: one
    byte below 128, or the two bytes of a code point from 128 on. A
    byte that starts anything else stands for a code point the model
    has no code unit for and is shown as a question mark. *)
Fixpoint utf8_text (l : list byte) : string :=
  match l with
  | [] => EmptyString
  | b :: l' =>
      let n := Byte.to_N b in
      if (n <? 128)%N then String (ascii_of_N n) (utf8_text l')
      else
        match l' with
        | b2 :: l'' =>
            let m := Byte.to_N b2 in
            if ((n =? 194) || (n =? 195))%N && (128 <=? m)%N && (m <? 192)%N
            then String (ascii_of_N ((n - 192) * 64 + (m - 128))) (utf8_text l'')
            else String "?" (utf8_text l')
        | [] => "?"
        end
  end.

Section Sequences.
Variable parse_value : string -> option (json * string).

(** After an element: a comma and one more, or the closing bracket. *)
Fixpoint parse_items (fuel : nat) (s : string) (acc : list json) : option (json * string) :=
  match fuel with
  | O => None
  | S f =>
      match parse_value s with
      | Some (v, rest) =>
          match skip_ws rest with
          | String "," rest' => parse_items f rest' (acc ++ [v])
          | String "]" rest' => Some (JArr (acc ++ [v]), rest')
          | _ => None
          end
      | None => None
      end
  end.

Fixpoint parse_fields (fuel : nat) (s : string) (acc : list (string * json))
  : option (json * string) :=
  match fuel with
  | O => None
  | S f =>
      match skip_ws s with
      | String c s1 =>
          match (if Ascii.eqb c dquote then parse_chars s1 else None) with
          | Some (key, s2) =>
              match skip_ws s2 with
              | String ":" s3 =>
                  match parse_value s3 with
                  | Some (v, rest) =>
                      let acc' := define key v acc in
                      match skip_ws rest with
                      | String "," rest' => parse_fields f rest' acc'
                      | String "}" rest' => Some (JObj acc', rest')
                      | _ => None
                      end
                  | None => None
                  end
              | _ => None
              end
          | None => None
          end
      | EmptyString => None
      end
  end.

End Sequences.

Fixpoint parse_value (fuel : nat) (s : string) : option (json * string) :=
  match fuel with
  | O => None
  | S f =>
      match skip_ws s with
      | String "n" (String "u" (String "l" (String "l" rest))) => Some (JNull, rest)
      | String "t" (String "r" (String "u" (String "e" rest))) => Some (JBool true, rest)
      | String "f" (String "a" (String "l" (String "s" (String "e" rest)))) =>
          Some (JBool false, rest)
      | String (Ascii false true false false false true false false) rest =>
          match parse_chars rest with
          | Some (str, rest') => Some (JStr str, rest')
          | None => None
          end
      | String "[" rest =>
          match skip_ws rest with
          | String "]" rest' => Some (JArr [], rest')
          | _ => parse_items (parse_value f) (String.length rest) rest []
          end
      | String "{" rest =>
          match skip_ws rest with
          | String "}" rest' => Some (JObj [], rest')
          | _ => parse_fields (parse_value f) (String.length rest) rest []
          end
      | String "-" rest =>
          match parse_unsigned rest with
          | Some (n, rest') => Some (JNum (- Z.of_N n), rest')
          | None => None
          end
      | s' =>
          match parse_unsigned s' with
          | Some (n, rest') => Some (JNum (Z.of_N n), rest')
          | None => None
          end
      end
  end.

Definition parse (s : string) : option json :=
  match parse_value (S (String.length s)) s with
  | Some (v, rest) => if isEmpty (skip_ws rest) then Some v else None
  | None => None
  end.

#[global] Instance runtime : Runtime := {|
  Number := Number_literal;
  JSON_parse := parse;
  JSON_stringify := stringify;
  toString_utf8 := utf8_text;
  process_cwd := ["srv"; "app"];
  process_cwd_path := eq_refl
|}.

End Reference.

(** ** Sample requests *)

Module Samples.

Import JS Signature.

(** A body signed at second 1700000000 under the secret [s3cret]. *)
Definition signed_args (signature : string) : VerifyArgs := {|
  rawBody := Buffer.from_utf8 "{}";
  signature := signature;
  timestamp := "1700000000";
  secret := "s3cret";
  maxSkewSeconds := None
|}.

Definition digest_hex : string :=
  "97926816e98fbb41ccb1673225ff29a2f35369099990e1b1561651e7bd097ebf".

(** Some other text of 32 hex pairs. *)
Definition other_hex : string :=
  "00112233445566778899aabbccddeeff00112233445566778899aabbccddeeff".

(** A file system with the root directory only. *)
Definition empty_fs : Fs.t := {| Fs.files := ∅; Fs.dirs := {[ [] ]} |}.

Definition data_dir : list string := ["srv"; "app"; "backend"; "data"].

(** A storage directory with two records; the text of the newer one
    is not a JSON document. *)
Definition corrupt_fs : Fs.t := {|
  Fs.files := {[ data_dir ++ ["200_x_a.json"] := "not json";
                 data_dir ++ ["100_x_b.json"] := "{}" ]};
  Fs.dirs := list_to_set (Fs.prefixes data_dir)
|}.

(** An event of the platform, and one that carries no timestamp. *)
Definition event (type : string) (ts : Z) (id : string) : json :=
  JObj [("type", JStr type); ("event_timestamp", JNum ts);
        ("data", JObj [("conversation_id", JStr id)])].


Definition transcription (ts : Z) (id : string) : json :=
  event "post_call_transcription" ts id.

(** The events of the specification's ordering test, with the time of
    each save. *)
Definition three_events : list (json * Z) :=
  [(transcription 100 "a", 0); (transcription 300 "b", 0); (transcription 200 "c", 0)].

(** A POST at second 1700000000 whose body is the text of [payload]. *)
Definition post (payload : json) (signature : string) : Routes.request := {|
  Routes.ElevenLabs_Signature := Some signature;
  Routes.ElevenLabs_Timestamp := Some "1700000000";
  Routes.req_body := Some (list_byte_of_string (Reference.stringify payload))
|}.


Definition slash_type_signature : string :=
  "sha256=94a328952c608d6d81f6129237c03d5ecfbac9fed8d2d9df558870dabe6be1f7".

Definition traversal_signature : string :=
  "sha256=27500ef9737a47a57e655f2d11a6ee1de979b4d5fa5c0d7211bb5f3a01bb9bb9".

(** A payload whose type climbs out of the storage directory. *)
Definition traversal : json := event "x/../../../pwned" 1 "../../etc".

(** The signature of the body [[1]], an array, under the same secret. *)
Definition array_signature : string :=
  "sha256=c07741edaa5fef7b99c0385c315207a791dec5dff4a434d8b835a517e6fae73c".

End Samples.

(** ** Vocabulary of the properties *)

Module Store.

Import JS Fs FileStore.

Section WithRuntime.
Context {RT : Runtime}.

(** The text of the record called [name], if there is one. *)
Definition record (fs : Fs.t) (name : string) : option string :=
  files fs !! (DATA_DIR ++ [name]).

(** The names of the regular files of the storage directory. *)
Definition record_names (fs : Fs.t) : list string :=
  omap (child_name DATA_DIR) (elements (dom (files fs))).

(** The file system once the storage directory has been made. *)
Definition made (fs : Fs.t) : Fs.t :=
  {| files := files fs; dirs := dirs fs ∪ list_to_set (prefixes DATA_DIR) |}.

(** The file system once [payload] has been written under its name,
    when it has one. *)
Definition saved (fs : Fs.t) (payload : json) (Date_now : Z) : Fs.t :=
  match getFilename payload Date_now with
  | Some name =>
      {| files := <[DATA_DIR ++ [name] := JSON_stringify payload]> (files fs);
         dirs := dirs fs ∪ list_to_set (prefixes DATA_DIR) |}
  | None => made fs
  end.

(** The storage directory can be created: no regular file stands
    where it or one of its ancestors should be. *)
Definition usable (fs : Fs.t) : bool :=
  forallb (fun q => negb (is_file fs q)) (prefixes DATA_DIR).

(** The storage directory holds regular files only, each under a name
    that is one path segment. *)
Definition flat (fs : Fs.t) : bool :=
  forallb (fun q => match child_name DATA_DIR q with Some _ => false | None => true end)
    (elements (dirs fs))
  && forallb (fun q => match child_name DATA_DIR q with
                       | Some name => Path.segment name
                       | None => true
                       end)
       (elements (dom (files fs))).

Definition well_kept (fs : Fs.t) : bool := usable fs && flat fs.

(** The record names as the two readers order them: newest name first. *)
Definition latest_first (names : list string) : list string :=
  reverse (sort names).

Definition is_json_name (name : string) : bool := endsWith name ".json".

(** The document of a record, when its text parses. *)
Definition document (fs : Fs.t) (name : string) : option json :=
  record fs name ≫= JSON_parse.

(** Saving a sequence of payloads, each at its own time. *)
Fixpoint save_each (ps : list (json * Z)) : M unit :=
  match ps with
  | [] => mret ()
  | (p, t) :: rest => _ ← saveConversationPayload p t; save_each rest
  end.



End WithRuntime.


(** A string made of the class [[a-zA-Z0-9_-]] only. *)
Fixpoint all_safe (s : string) : Prop :=
  match s with
  | EmptyString => True
  | String c s' => safe_unit c = true /\ all_safe s'
  end.

(** The two types the ingestion handler knows. *)
Definition known_type (payload : json) : bool :=
  Routes.is_type "post_call_transcription" (opt_prop "type" (Some payload))
  || Routes.is_type "post_call_audio" (opt_prop "type" (Some payload)).

Definition reply (status : Z) (body : list (string * json)) : Routes.response :=
  {| Routes.status := status; Routes.body := JObj body |}.


End Store.

Module Numeral.

Definition is_digit (c : ascii) : Prop := (48 <= N_of_ascii c <= 57)%N.

Fixpoint all_digits (s : string) : Prop :=
  match s with
  | EmptyString => True
  | String c s' => is_digit c /\ all_digits s'
  end.

(** The number a string of digits denotes. *)
Fixpoint digits_value (s : string) : N :=
  match s with
  | EmptyString => 0
  | String c s' => (N_of_ascii c - 48) * 10 ^ N.of_nat (String.length s') + digits_value s'
  end.

(** A text with neither a slash nor a NUL in it. *)
Definition plain (s : string) : Prop :=
  JS.includes s "/" = false /\ JS.has_NUL s = false.

End Numeral.

Module Hex.

(** A letter [A]..[F] as its lower-case form, any other code unit as
    it is. *)
Definition lower_unit (c : ascii) : ascii :=
  let n := N_of_ascii c in
  if ((65 <=? n) && (n <=? 70))%N then ascii_of_N (n + 32) else c.

Fixpoint lower (s : string) : string :=
  match s with
  | EmptyString => EmptyString
  | String c s' => String (lower_unit c) (lower s')
  end.

End Hex.

Module Polling.

Import JS Viewer.

(** What happens to the component: a call of [fetchLatest] starts, or
    a pending one settles. *)
Inductive event :=
| Begin
| Settle (seen : nat) (timestamp : Z) (r : thrown + response).

Definition step (st : state) (e : event) : state :=
  match e with
  | Begin => fetchLatest_begin st
  | Settle seen timestamp r => fetchLatest_settle seen timestamp r st
  end.

(** The state after a sequence of events, from the first render. *)
Definition run (es : list event) : state := fold_left step es initial.

(** The request of the event, if it settles one, has failed: [fetch]
    rejected, the status was not ok, the body did not parse, or a turn
    did not convert to text. *)
Definition failing (e : event) : Prop :=
  match e with
  | Begin => True
  | Settle _ _ r => exists x, attempt r = inl x
  end.

Definition settles (e : event) : bool :=
  match e with Begin => false | Settle _ _ _ => true end.

(** An element of a transcript that is shown as the turn [t]: an
    object with a string [role], whose [message] (the empty string
    when it is absent or null) converts to the text of [t]. *)
Definition shows (item : json) (t : Turn) : Prop :=
  exists fields,
    item = JObj fields /\
    assoc "role" fields = Some (JStr (role t)) /\
    ToString (nullish_or (assoc "message" fields) (JStr EmptyString)) = Some (message t).

(** An element that is left out: a falsy one, or one without a string
    [role]. *)
Definition skipped (item : json) : Prop :=
  falsy item = true \/ forall r, prop "role" item <> Some (JStr r).

(** The turns of a transcript: those of its elements that show a
    turn, in their order, the skipped ones left out. *)
Inductive displayed : list json -> list Turn -> Prop :=
| displayed_nil : displayed [] []
| displayed_skip item items ts :
    skipped item -> displayed items ts -> displayed (item :: items) ts
| displayed_turn item t items ts :
    shows item t -> displayed items ts -> displayed (item :: items) (t :: ts).

End Polling.

(** * Properties *)

(** ** The digest against published test vectors *)

Example K256_ends :
  List.map (fun i => nth i Crypto.K256 0) [0; 1; 63]%nat = [0x428a2f98; 0x71374491; 0xc67178f2]
  /\ length Crypto.K256 = 64%nat
  /\ nth 0 Crypto.H256 0 = 0x6a09e667 /\ nth 7 Crypto.H256 0 = 0x5be0cd19.
Proof. vm_compute. auto. Qed.

Example sha256_abc :
  Buffer.to_hex (Crypto.sha256 (Buffer.from_utf8 "abc")) =
  "ba7816bf8f01cfea414140de5dae2223b00361a396177a9cb410ff61f20015ad".
Proof. vm_compute. reflexivity. Qed.

(** Two blocks. *)
Example sha256_two_blocks :
  Buffer.to_hex
    (Crypto.sha256
       (Buffer.from_utf8 "abcdbcdecdefdefgefghfghighijhijkijkljklmklmnlmnomnopnopq")) =
  "248d6a61d20638b8e5c026930c3e6039a33ce45964ff2167f6ecedd419db06c1".
Proof. vm_compute. reflexivity. Qed.

(** RFC 4231, test case 2. *)
Example hmac_sha256_rfc4231_2 :
  Buffer.to_hex (Crypto.hmac_sha256 (Buffer.from_utf8 "Jefe")
                   (Buffer.from_utf8 "what do ya want for nothing?")) =
  "5bdcc146bf60754e6a042426089575c75a003f089d2739839dec58b964ec3843".
Proof. vm_compute. reflexivity. Qed.

(** RFC 4231, test case 6: a key longer than one block. *)
Example hmac_sha256_rfc4231_6 :
  Buffer.to_hex
    (Crypto.hmac_sha256 (repeat "170"%byte 131)
       (Buffer.from_utf8 "Test Using Larger Than Block-Size Key - Hash Key First")) =
  "60e431591ee0b67f0d8a26aacbf5b77f8e0bc6213728c5140546040f0ee37f54".
Proof. vm_compute. reflexivity. Qed.

(** The sample signature is the digest of the sample request. *)
Example sample_digest :
  Buffer.to_hex (Signature.expected_digest (Samples.signed_args EmptyString)) =
  Samples.digest_hex.
Proof. vm_compute. reflexivity. Qed.

(** ** Hexadecimal text *)

Section HexFacts.
Import Buffer.

Lemma from_hex_pair (b : byte) (s : string) :
  from_hex (String (hex_digit (Byte.to_N b / 16))
              (String (hex_digit (Byte.to_N b mod 16)) s)) = b :: from_hex s.
Proof.
  assert (Hb :
    unhex (hex_digit (Byte.to_N b / 16)) = Some (Byte.to_N b / 16)%N /\
    unhex (hex_digit (Byte.to_N b mod 16)) = Some (Byte.to_N b mod 16)%N /\
    byte_of_N (16 * (Byte.to_N b / 16) + Byte.to_N b mod 16) = b)
    by (destruct b; vm_compute; auto).
  destruct Hb as (H1 & H2 & H3).
  cbn [from_hex]. rewrite H1, H2, H3. reflexivity.
Qed.

Lemma from_hex_to_hex (l : Buffer.t) : from_hex (to_hex l) = l.
Proof.
  induction l as [|b l IH]; [reflexivity|].
  cbn [to_hex]. rewrite from_hex_pair, IH. reflexivity.
Qed.

End HexFacts.

(** ** Digests have 32 bytes *)

Section DigestLength.
Import Crypto.

Lemma round_length s kw : length (round s kw) = length s.
Proof.
  unfold round.
  repeat (destruct s as [|? s]; try reflexivity).
Qed.

Lemma fold_round_length l s : length (fold_left round l s) = length s.
Proof.
  revert s. induction l as [|kw l IH]; intros s; [reflexivity|].
  cbn [fold_left]. rewrite IH. apply round_length.
Qed.

Lemma compress_length h block : length (compress h block) = length h.
Proof.
  unfold compress. rewrite length_map, length_combine, fold_round_length. lia.
Qed.

Lemma blocks_length fuel h l : length (blocks fuel h l) = length h.
Proof.
  revert h l. induction fuel as [|f IH]; intros h l; [reflexivity|].
  cbn [blocks]. destruct l; [reflexivity|].
  rewrite IH. apply compress_length.
Qed.

Lemma flat_map_be_bytes_length (l : list Z) :
  length (flat_map (be_bytes 4) l) = (4 * length l)%nat.
Proof.
  induction l as [|x l IH]; [reflexivity|].
  cbn [flat_map]. rewrite length_app, IH. cbn. lia.
Qed.

Lemma sha256_length msg : length (sha256 msg) = 32%nat.
Proof.
  unfold sha256, sha256_Z.
  rewrite length_map, flat_map_be_bytes_length, blocks_length. reflexivity.
Qed.

Lemma hmac_sha256_length key msg : length (hmac_sha256 key msg) = 32%nat.
Proof. unfold hmac_sha256. apply sha256_length. Qed.

End DigestLength.

(** From here on the digest is used through its length only. *)
#[global] Opaque Crypto.hmac_sha256.

(** ** The comparison of digests *)

Section Comparison.
Import Signature.

Lemma to_N_inj (x y : byte) : Byte.to_N x = Byte.to_N y -> x = y.
Proof.
  intros E. apply (f_equal Byte.of_N) in E.
  rewrite !Byte.of_to_N in E. congruence.
Qed.

Lemma timingSafeEqual_acc_steps a b acc steps :
  snd (timingSafeEqual_acc a b acc steps) = (steps + Nat.min (length a) (length b))%nat.
Proof.
  revert b acc steps. induction a as [|x a IH]; intros [|y b] acc steps; cbn;
    try rewrite IH; lia.
Qed.

Lemma timingSafeEqual_acc_zero a b acc steps :
  length a = length b ->
  fst (timingSafeEqual_acc a b acc steps) = 0%N <-> acc = 0%N /\ a = b.
Proof.
  revert b acc steps. induction a as [|x a IH]; intros [|y b] acc steps Hlen;
    cbn in Hlen; try discriminate.
  - cbn. tauto.
  - cbn [timingSafeEqual_acc]. rewrite IH by lia.
    rewrite N.lor_eq_0_iff, N.lxor_eq_0_iff. split.
    + intros [[-> E] ->]. apply to_N_inj in E. subst. auto.
    + intros [-> E]. inversion E; subst. auto.
Qed.

Lemma timingSafeEqual_true a b :
  length a = length b -> fst (timingSafeEqual a b) = true <-> a = b.
Proof.
  intros Hlen. unfold timingSafeEqual. cbn [fst].
  rewrite N.eqb_eq, timingSafeEqual_acc_zero by assumption. tauto.
Qed.

Lemma timingSafeEqual_steps a b :
  length a = length b -> snd (timingSafeEqual a b) = length a.
Proof.
  intros Hlen. unfold timingSafeEqual. cbn [snd].
  rewrite timingSafeEqual_acc_steps. lia.
Qed.

Lemma skewed_spec now ts maxSkew :
  skewed now ts maxSkew = true <-> (inject_Z maxSkew < Qabs (inject_Z now - ts))%Q.
Proof.
  unfold skewed. rewrite negb_true_iff, <- not_true_iff_false, Qle_bool_iff.
  split; [apply Qnot_le_lt | apply Qlt_not_le].
Qed.

Lemma skewed_false now ts maxSkew :
  skewed now ts maxSkew = false <-> (Qabs (inject_Z now - ts) <= inject_Z maxSkew)%Q.
Proof.
  unfold skewed. rewrite negb_false_iff. apply Qle_bool_iff.
Qed.

Lemma isEmpty_false s : JS.isEmpty s = false <-> s <> EmptyString.
Proof. destruct s; cbn; split; congruence. Qed.

Context {RT : JS.Runtime}.

(** The verifier, stage by stage, once the three fields are present
    and the timestamp is a finite number. *)
Lemma verifySignature_run_checked args Date_now ts :
  signature args <> EmptyString ->
  timestamp args <> EmptyString ->
  secret args <> EmptyString ->
  JS.Number (timestamp args) = JS.Finite ts ->
  let e := expected_digest args in
  let b := Buffer.from_hex (provided_digest (signature args)) in
  verifySignature_run args Date_now =
    if skewed (Date_now / 1000) ts (default 300 (maxSkewSeconds args))
    then {| left_at := Stale; returned := false; byte_steps := 0 |}
    else if negb (length e =? length b)%nat
    then {| left_at := LengthMismatch; returned := false; byte_steps := 0 |}
    else {| left_at := Compared;
            returned := fst (timingSafeEqual e b);
            byte_steps := snd (timingSafeEqual e b) |}.
Proof.
  intros Hs Ht Hk Hn e b. unfold verifySignature_run.
  apply isEmpty_false in Hs, Ht, Hk. rewrite Hs, Ht, Hk, Hn. cbn [orb].
  change (5 * 60) with 300.
  rewrite from_hex_to_hex. reflexivity.
Qed.

Lemma verifySignature_in_window args Date_now ts :
  signature args <> EmptyString ->
  timestamp args <> EmptyString ->
  secret args <> EmptyString ->
  JS.Number (timestamp args) = JS.Finite ts ->
  skewed (Date_now / 1000) ts (default 300 (maxSkewSeconds args)) = false ->
  verifySignature args Date_now = true <->
  Buffer.from_hex (provided_digest (signature args)) = expected_digest args.
Proof.
  intros Hs Ht Hk Hn Hw. unfold verifySignature.
  rewrite (verifySignature_run_checked _ _ ts), Hw by assumption.
  destruct (length _ =? length _)%nat eqn:E; cbn [negb returned].
  - apply Nat.eqb_eq in E. rewrite timingSafeEqual_true by assumption.
    split; congruence.
  - apply Nat.eqb_neq in E. split; [discriminate|]. intros E'. rewrite E' in E. lia.
Qed.

Lemma from_hex_empty_provided : Buffer.from_hex (provided_digest EmptyString) = [].
Proof. reflexivity. Qed.

Lemma expected_digest_length args : length (expected_digest args) = 32%nat.
Proof. apply hmac_sha256_length. Qed.

End Comparison.

(** ** Claims on the signature verifier *)

Section VerifierClaims.
Import JS Signature.
Context {RT : Runtime}.

Lemma from_utf8_app s1 s2 :
  Buffer.from_utf8 (s1 +:+ s2) = Buffer.from_utf8 s1 ++ Buffer.from_utf8 s2.
Proof.
  induction s1 as [|c s1 IH]; [reflexivity|].
  simpl. rewrite IH, app_assoc. reflexivity.
Qed.

Lemma signed_bytes_spec T B :
  signed_bytes T B = Buffer.from_utf8 T ++ "."%byte :: B.
Proof.
  unfold signed_bytes. rewrite from_utf8_app, <- app_assoc. reflexivity.
Qed.

(** The number of byte pairs a run compares depends on the signature
    only through the length of its decoding. *)
Lemma byte_steps_run args Date_now :
  byte_steps (verifySignature_run args Date_now) =
    if negb (isEmpty (timestamp args)) && negb (isEmpty (secret args))
       && match Number (timestamp args) with
          | Finite ts => negb (skewed (Date_now / 1000) ts (default 300 (maxSkewSeconds args)))
          | _ => false
          end
       && (length (Buffer.from_hex (provided_digest (signature args))) =? 32)%nat
    then 32%nat else 0%nat.
Proof.
  destruct (isEmpty (signature args)) eqn:Es.
  - destruct (signature args) eqn:E; [|discriminate].
    unfold verifySignature_run. rewrite E. cbn [isEmpty orb byte_steps].
    rewrite from_hex_empty_provided. cbn [length Nat.eqb].
    rewrite andb_false_r. reflexivity.
  - destruct (isEmpty (timestamp args)) eqn:Et;
      [unfold verifySignature_run; rewrite Es, Et; reflexivity|].
    destruct (isEmpty (secret args)) eqn:Ek;
      [unfold verifySignature_run; rewrite Es, Et, Ek; reflexivity|].
    destruct (Number (timestamp args)) as [| |ts] eqn:En;
      try (unfold verifySignature_run; rewrite Es, Et, Ek, En; reflexivity).
    apply isEmpty_false in Es, Et, Ek.
    rewrite (verifySignature_run_checked _ _ ts) by assumption.
    cbn [negb andb]. rewrite expected_digest_length.
    destruct (skewed _ _ _); [reflexivity|]. cbn [negb].
    rewrite (Nat.eqb_sym 32).
    destruct (_ =? 32)%nat eqn:E; cbn [negb byte_steps]; [|reflexivity].
    apply Nat.eqb_eq in E.
    rewrite timingSafeEqual_steps by (rewrite expected_digest_length; lia).
    apply expected_digest_length.
Qed.

End VerifierClaims.

(** C1 (as amended). For every raw body B, every non-empty timestamp
    header T that parses to a finite number within the skew window and
    every non-empty secret S, verifySignature returns true exactly when
    the provided signature header, after stripping an optional
    [sha256=] prefix, decodes as hex (the way [Buffer.from] decodes: in
    either case, up to the first pair that is not two hex digits) to
    the HMAC-SHA256 digest of the bytes of T, then the separator [.],
    then B, keyed by S. In particular the hex encoding of that digest
    is accepted. *)
Theorem verifySignature_accepts_decoded_digest {RT : JS.Runtime}
    (B : Buffer.t) (T S sig : string) (ts : Q) (Date_now : Z) :
  T <> EmptyString ->
  S <> EmptyString ->
  JS.Number T = JS.Finite ts ->
  (Qabs (inject_Z (Date_now / 1000) - ts) <= inject_Z 300)%Q ->
  let args := {| Signature.rawBody := B; Signature.signature := sig;
                 Signature.timestamp := T; Signature.secret := S;
                 Signature.maxSkewSeconds := None |} in
  let digest :=
    Crypto.hmac_sha256 (Buffer.from_utf8 S) (Buffer.from_utf8 T ++ "."%byte :: B) in
  (Signature.verifySignature args Date_now = true <->
   Buffer.from_hex (Signature.provided_digest sig) = digest) /\
  (Signature.provided_digest sig = Buffer.to_hex digest ->
   Signature.verifySignature args Date_now = true).
Proof.
  intros HT HS Hn Hw args digest.
  assert (Hd : Signature.expected_digest args = digest).
  { unfold Signature.expected_digest, digest, args.
    cbn [Signature.secret Signature.timestamp Signature.rawBody].
    rewrite signed_bytes_spec. reflexivity. }
  assert (Hiff : Signature.verifySignature args Date_now = true <->
                 Buffer.from_hex (Signature.provided_digest sig) = digest).
  { destruct sig as [|c sig'] eqn:Esig.
    - split; [discriminate|]. intros E. exfalso.
      apply (f_equal (@length _)) in E. rewrite <- Hd, expected_digest_length in E.
      discriminate.
    - rewrite <- Hd. apply (verifySignature_in_window args Date_now ts); try assumption.
      + discriminate.
      + apply skewed_false. exact Hw. }
  split; [exact Hiff|].
  intros E. apply Hiff. rewrite E. apply from_hex_to_hex.
Qed.

Lemma verifySignature_accepts_decoded_digest_witness :
  Signature.verifySignature (RT := Reference.runtime)
    (Samples.signed_args ("sha256=" +:+ Samples.digest_hex)) 1700000123456 = true.
Proof.
  apply (verifySignature_accepts_decoded_digest (RT := Reference.runtime)
           (Buffer.from_utf8 "{}") "1700000000" "s3cret"
           ("sha256=" +:+ Samples.digest_hex) (inject_Z 1700000000) 1700000123456).
  - discriminate.
  - discriminate.
  - reflexivity.
  - vm_compute. discriminate.
  - vm_compute. reflexivity.
Defined.

(** C1, counterexample. A signature made of the digest's hex text
    followed by other characters is not the hex encoding of the digest,
    and is accepted. *)
Lemma verifySignature_accepts_trailing_text :
  Signature.verifySignature (RT := Reference.runtime)
    (Samples.signed_args ("sha256=" +:+ Samples.digest_hex +:+ "zz")) 1700000000000 = true
  /\ Signature.provided_digest ("sha256=" +:+ Samples.digest_hex +:+ "zz")
     <> Buffer.to_hex (Signature.expected_digest
          (Samples.signed_args ("sha256=" +:+ Samples.digest_hex +:+ "zz")))
  /\ @JS.Number Reference.runtime "1700000000" = JS.Finite (inject_Z 1700000000).
Proof.
  split; [vm_compute; reflexivity|].
  split; [vm_compute; discriminate|reflexivity].
Qed.

(** C2. The comparison of digests runs in constant time: the provided
    and the expected digest are decoded to byte arrays; two signatures
    whose decodings have one length cause the same number of byte
    comparisons whatever their content (all 32 pairs once the
    comparison is reached, with no exit at a mismatch); and when the
    decoded lengths differ the verifier returns false without comparing
    a single byte. *)
Theorem verifySignature_constant_time {RT : JS.Runtime}
    (B : Buffer.t) (T S sig1 sig2 : string) (maxSkew : option Z) (Date_now : Z) :
  let run sig :=
    Signature.verifySignature_run
      {| Signature.rawBody := B; Signature.signature := sig;
         Signature.timestamp := T; Signature.secret := S;
         Signature.maxSkewSeconds := maxSkew |} Date_now in
  let decoded sig := Buffer.from_hex (Signature.provided_digest sig) in
  let expected :=
    Signature.expected_digest
      {| Signature.rawBody := B; Signature.signature := sig1;
         Signature.timestamp := T; Signature.secret := S;
         Signature.maxSkewSeconds := maxSkew |} in
  length (decoded sig1) = length (decoded sig2) ->
  Signature.byte_steps (run sig1) = Signature.byte_steps (run sig2) /\
  (Signature.left_at (run sig1) = Signature.Compared ->
   Signature.byte_steps (run sig1) = length expected) /\
  (length (decoded sig1) <> length expected ->
   Signature.returned (run sig1) = false /\
   Signature.byte_steps (run sig1) = 0%nat /\
   Signature.left_at (run sig1) <> Signature.Compared).
Proof.
  intros run decoded expected Hlen.
  assert (He : length expected = 32%nat) by apply expected_digest_length.
  split; [|split].
  - unfold run. rewrite !byte_steps_run. cbn [Signature.timestamp Signature.secret
      Signature.maxSkewSeconds Signature.signature].
    fold (decoded sig1) (decoded sig2). rewrite Hlen. reflexivity.
  - intros Hc. unfold run in *. rewrite byte_steps_run.
    revert Hc. unfold Signature.verifySignature_run.
    cbn [Signature.timestamp Signature.secret Signature.maxSkewSeconds Signature.signature].
    destruct (JS.isEmpty sig1), (JS.isEmpty T), (JS.isEmpty S); cbn [orb negb andb];
      try discriminate.
    destruct (JS.Number T); try discriminate.
    change (5 * 60) with 300.
    destruct (Signature.skewed _ _ _); try discriminate. cbn [negb].
    rewrite from_hex_to_hex. fold expected (decoded sig1). rewrite He.
    destruct (32 =? length (decoded sig1))%nat eqn:E; cbn [negb]; try discriminate.
    intros _. rewrite Nat.eqb_sym, E. reflexivity.
  - intros Hne. rewrite He in Hne.
    assert (E : (length (decoded sig1) =? 32)%nat = false) by (apply Nat.eqb_neq; exact Hne).
    unfold run. split; [|split].
    + unfold Signature.verifySignature_run.
      cbn [Signature.timestamp Signature.secret Signature.maxSkewSeconds Signature.signature].
      destruct (JS.isEmpty sig1 || JS.isEmpty T || JS.isEmpty S); [reflexivity|].
      destruct (JS.Number T); try reflexivity.
      destruct (Signature.skewed _ _ _); [reflexivity|].
      rewrite from_hex_to_hex. fold expected (decoded sig1). rewrite He.
      rewrite Nat.eqb_sym, E. reflexivity.
    + rewrite byte_steps_run.
      cbn [Signature.timestamp Signature.secret Signature.maxSkewSeconds Signature.signature].
      fold (decoded sig1). rewrite E, andb_false_r. reflexivity.
    + unfold Signature.verifySignature_run.
      cbn [Signature.timestamp Signature.secret Signature.maxSkewSeconds Signature.signature].
      destruct (JS.isEmpty sig1 || JS.isEmpty T || JS.isEmpty S); [discriminate|].
      destruct (JS.Number T); try discriminate.
      destruct (Signature.skewed _ _ _); [discriminate|].
      rewrite from_hex_to_hex. fold expected (decoded sig1). rewrite He.
      rewrite Nat.eqb_sym, E. discriminate.
Qed.

Lemma verifySignature_constant_time_witness :
  Signature.byte_steps
    (Signature.verifySignature_run (RT := Reference.runtime)
       (Samples.signed_args ("sha256=" +:+ Samples.digest_hex)) 1700000000000) =
  Signature.byte_steps
    (Signature.verifySignature_run (RT := Reference.runtime)
       (Samples.signed_args Samples.other_hex) 1700000000000).
Proof.
  destruct (verifySignature_constant_time (RT := Reference.runtime)
              (Buffer.from_utf8 "{}") "1700000000" "s3cret"
              ("sha256=" +:+ Samples.digest_hex) Samples.other_hex None 1700000000000)
    as [Hsteps _].
  - vm_compute. reflexivity.
  - exact Hsteps.
Defined.

(** C3. For a timestamp header T that parses to a finite number ts and
    the current time now in seconds, the verifier rejects at its skew
    check exactly when |now - ts| > 300 under the default
    maxSkewSeconds, so that a request whose signature matches is
    rejected exactly then; the two boundary values now - ts = 300 and
    now - ts = -300 pass the skew check; and a T that does not parse
    to a finite number is always rejected. *)
Theorem verifySignature_replay_window {RT : JS.Runtime}
    (B : Buffer.t) (sig T S : string) (ts : Q) (Date_now : Z) :
  sig <> EmptyString ->
  T <> EmptyString ->
  S <> EmptyString ->
  JS.Number T = JS.Finite ts ->
  let args T' := {| Signature.rawBody := B; Signature.signature := sig;
                    Signature.timestamp := T'; Signature.secret := S;
                    Signature.maxSkewSeconds := None |} in
  let now := inject_Z (Date_now / 1000) in
  (Signature.left_at (Signature.verifySignature_run (args T) Date_now) = Signature.Stale
   <-> (inject_Z 300 < Qabs (now - ts))%Q) /\
  (Buffer.from_hex (Signature.provided_digest sig) = Signature.expected_digest (args T) ->
   (Signature.verifySignature (args T) Date_now = false
    <-> (inject_Z 300 < Qabs (now - ts))%Q)) /\
  ((now - ts == inject_Z 300 \/ now - ts == - inject_Z 300)%Q ->
   Signature.left_at (Signature.verifySignature_run (args T) Date_now) <> Signature.Stale) /\
  (forall T', JS.isFinite (JS.Number T') = false ->
   Signature.verifySignature (args T') Date_now = false).
Proof.
  intros Hs Ht Hk Hn args now. subst now.
  assert (Hrun := verifySignature_run_checked (args T) Date_now ts Hs Ht Hk Hn).
  cbn zeta in Hrun. cbn [Signature.maxSkewSeconds args default] in Hrun.
  assert (Hstale :
    Signature.left_at (Signature.verifySignature_run (args T) Date_now) = Signature.Stale
    <-> (inject_Z 300 < Qabs (inject_Z (Date_now / 1000) - ts))%Q).
  { rewrite <- skewed_spec. fold args in Hrun. rewrite Hrun.
    destruct (Signature.skewed _ _ _); [tauto|].
    destruct (negb _); cbn [Signature.left_at]; split; discriminate. }
  split; [exact Hstale|]. split; [|split].
  - intros Hvalid. rewrite <- skewed_spec.
    destruct (Signature.skewed (Date_now / 1000) ts 300) eqn:Esk.
    + unfold Signature.verifySignature. rewrite Hrun. tauto.
    + split; [|discriminate]. intros Hfalse.
      pose proof (verifySignature_in_window (args T) Date_now ts Hs Ht Hk Hn Esk) as Hiff.
      apply Hiff in Hvalid. congruence.
  - intros Hb Hst. apply Hstale in Hst.
    apply (Qlt_not_le _ _ Hst). apply Qabs_Qle_condition.
    destruct Hb as [-> | ->]; split; vm_compute; discriminate.
  - intros T' Hnf. unfold Signature.verifySignature, Signature.verifySignature_run.
    cbn [args Signature.timestamp Signature.signature Signature.secret].
    destruct (JS.isEmpty sig || JS.isEmpty T' || JS.isEmpty S); [reflexivity|].
    destruct (JS.Number T'); try reflexivity. discriminate.
Qed.

Lemma verifySignature_replay_window_witness :
  Signature.verifySignature (RT := Reference.runtime)
    {| Signature.rawBody := Buffer.from_utf8 "{}";
       Signature.signature := "sha256=" +:+ Samples.digest_hex;
       Signature.timestamp := "1700000000";
       Signature.secret := "s3cret";
       Signature.maxSkewSeconds := None |} 1700000300999 = false
  <-> (inject_Z 300 <
       Qabs (inject_Z (1700000300999 / 1000) - inject_Z 1700000000))%Q.
Proof.
  refine (proj1 (proj2 (verifySignature_replay_window (RT := Reference.runtime)
              (Buffer.from_utf8 "{}") ("sha256=" +:+ Samples.digest_hex)
              "1700000000" "s3cret" (inject_Z 1700000000) 1700000300999 _ _ _ _)) _).
  - discriminate.
  - discriminate.
  - discriminate.
  - reflexivity.
  - vm_compute. reflexivity.
Defined.

(** ** Strings: order, search, decimal numerals *)

Section StringOrder.
Import JS.

Lemma ascii_compare_refl c : Ascii.compare c c = Eq.
Proof. unfold Ascii.compare. apply N.compare_refl. Qed.

Lemma string_compare_refl s : String.compare s s = Eq.
Proof.
  induction s as [|c s IH]; [reflexivity|].
  cbn. rewrite ascii_compare_refl. exact IH.
Qed.


Lemma string_compare_lt_trans s1 s2 s3 :
  String.compare s1 s2 = Lt -> String.compare s2 s3 = Lt -> String.compare s1 s3 = Lt.
Proof.
  revert s2 s3. induction s1 as [|c1 s1 IH]; intros [|c2 s2] [|c3 s3];
    cbn [String.compare]; try congruence.
  unfold Ascii.compare.
  destruct (N.compare_spec (N_of_ascii c1) (N_of_ascii c2)) as [E12|L12|G12];
    destruct (N.compare_spec (N_of_ascii c2) (N_of_ascii c3)) as [E23|L23|G23];
    intros H1 H2; try discriminate.
  - rewrite E12, E23, N.compare_refl. eapply IH; eauto.
  - rewrite E12. apply N.compare_lt_iff in L23. rewrite L23. reflexivity.
  - rewrite <- E23. apply N.compare_lt_iff in L12. rewrite L12. reflexivity.
  - assert (L : (N_of_ascii c1 < N_of_ascii c3)%N) by lia.
    apply N.compare_lt_iff in L. rewrite L. reflexivity.
Qed.

#[global] Instance str_le_refl : Reflexive str_le.
Proof. intros s. unfold str_le, String.leb. rewrite string_compare_refl. reflexivity. Qed.

#[global] Instance str_le_total : Total str_le.
Proof. intros s1 s2. apply String.leb_total. Qed.

#[global] Instance str_le_antisym : AntiSymm (=) str_le.
Proof. intros s1 s2. apply String.leb_antisym. Qed.

#[global] Instance str_le_trans : Transitive str_le.
Proof.
  intros s1 s2 s3. unfold str_le, String.leb.
  destruct (String.compare s1 s2) eqn:E12; try discriminate;
    destruct (String.compare s2 s3) eqn:E23; try discriminate; intros _ _.
  - apply String.compare_eq_iff in E12, E23. subst. rewrite string_compare_refl. reflexivity.
  - apply String.compare_eq_iff in E12. subst. rewrite E23. reflexivity.
  - apply String.compare_eq_iff in E23. subst. rewrite E12. reflexivity.
  - rewrite (string_compare_lt_trans s1 s2 s3 E12 E23). reflexivity.
Qed.

Lemma append_cons c s r : (String c s +:+ r)%string = String c (s +:+ r).
Proof. reflexivity. Qed.



Lemma string_length_append (a b : string) :
  String.length (a +:+ b) = (String.length a + String.length b)%nat.
Proof.
  induction a as [|x a IH]; [reflexivity|].
  rewrite append_cons. cbn [String.length]. rewrite IH. reflexivity.
Qed.


Lemma prefix_append p s : String.prefix p (p +:+ s) = true.
Proof.
  induction p as [|c p IH]; [destruct s; reflexivity|].
  rewrite append_cons. cbn [String.prefix].
  destruct (ascii_dec c c); [exact IH|contradiction].
Qed.



Lemma drop_append a s : drop (String.length a) (a +:+ s) = s.
Proof. induction a as [|c a IH]; [destruct s; reflexivity|exact IH]. Qed.


End StringOrder.

Section Decimal.
Import JS Numeral.

Lemma N_of_digit n : (n < 10)%N -> N_of_ascii (digit n) = (48 + n)%N.
Proof.
  intros Hn. unfold digit. rewrite N_ascii_embedding; [reflexivity|lia].
Qed.

Lemma digit_is_digit n : (n < 10)%N -> is_digit (digit n).
Proof. intros Hn. unfold is_digit. rewrite N_of_digit by assumption. lia. Qed.


Lemma digits_of_spec fuel n acc :
  (0 < fuel)%nat ->
  (n < 2 ^ N.of_nat fuel)%N ->
  all_digits acc ->
  all_digits (digits_of fuel n acc) /\
  digits_value (digits_of fuel n acc) =
    (n * 10 ^ N.of_nat (String.length acc) + digits_value acc)%N /\
  exists k, String.length (digits_of fuel n acc) = (String.length acc + S k)%nat /\
            ((1 <= n)%N -> (10 ^ N.of_nat k <= n)%N).
Proof.
  revert n acc. induction fuel as [|f IH]; intros n acc Hf Hn Hacc; [lia|].
  - cbn [digits_of].
    assert (Hd : (n mod 10 < 10)%N) by (apply N.mod_lt; lia).
    destruct (N.ltb_spec n 10) as [Hlt|Hge].
    + rewrite N.mod_small by assumption.
      split; [cbn; split; [apply digit_is_digit; assumption|assumption]|].
      split.
      * cbn [digits_value]. rewrite N_of_digit by assumption.
        rewrite (N.add_comm 48), N.add_sub. reflexivity.
      * exists 0%nat. cbn [String.length]. split; [lia|]. cbn. lia.
    + assert (Hn' : (n / 10 < 2 ^ N.of_nat f)%N).
      { rewrite Nat2N.inj_succ, N.pow_succ_r' in Hn.
        apply N.Div0.div_lt_upper_bound. lia. }
      assert (Hacc' : all_digits (String (digit (n mod 10)) acc))
        by (cbn; split; [apply digit_is_digit; assumption|assumption]).
      assert (Hf' : (0 < f)%nat).
      { destruct f; [|lia]. cbn in Hn. lia. }
      destruct (IH (n / 10)%N _ Hf' Hn' Hacc') as (Hall & Hval & k & Hlen & Hk).
      split; [exact Hall|]. split.
      * rewrite Hval. cbn [digits_value String.length].
        rewrite N_of_digit by assumption.
        rewrite Nat2N.inj_succ, N.pow_succ_r'.
        pose proof (N.div_mod n 10 ltac:(lia)) as Hdm.
        rewrite (N.add_comm 48), N.add_sub.
        remember (n / 10)%N as q. remember (n mod 10)%N as r.
        rewrite Hdm. ring.
      * exists (S k). cbn [String.length] in Hlen. split; [lia|].
        intros _. rewrite Nat2N.inj_succ, N.pow_succ_r'.
        assert (1 <= n / 10)%N by (apply N.div_le_lower_bound; lia).
        specialize (Hk ltac:(assumption)).
        pose proof (N.div_mod n 10 ltac:(lia)) as Hdm.
        remember (n / 10)%N as q. remember (n mod 10)%N as r.
        remember (10 ^ N.of_nat k)%N as p. lia.
Qed.

Lemma decimal_fuel n : (n < 2 ^ N.of_nat (S (N.to_nat (N.log2 n))))%N.
Proof.
  rewrite Nat2N.inj_succ, N2Nat.id.
  destruct (N.eq_dec n 0%N) as [->|Hn]; [cbn; lia|].
  apply (N.log2_spec n). lia.
Qed.

Lemma decimal_digits n : all_digits (decimal n).
Proof. apply (digits_of_spec _ n EmptyString (Nat.lt_0_succ _) (decimal_fuel n) I). Qed.




End Decimal.

(** ** Paths and directory listings *)

Section Paths.
Import JS Fs.

Lemma strip_prefix_spec d q r : strip_prefix d q = Some r <-> q = d ++ r.
Proof.
  revert q. induction d as [|x d IH]; intros q; cbn.
  - split; congruence.
  - destruct q as [|y q]; [split; discriminate|].
    destruct (decide (x = y)) as [->|Hne].
    + rewrite IH. split; congruence.
    + split; [discriminate|]. intros E. congruence.
Qed.

Lemma child_name_spec d q name : child_name d q = Some name <-> q = d ++ [name].
Proof.
  unfold child_name. destruct (strip_prefix d q) as [r|] eqn:E.
  - apply strip_prefix_spec in E. subst q.
    destruct r as [|x [|y r]]; split; try discriminate.
    + intros E. apply (f_equal (@length _)) in E. rewrite !length_app in E. cbn in E. lia.
    + congruence.
    + intros E. apply app_inv_head in E. congruence.
    + intros E. apply app_inv_head in E. discriminate.
  - split; [discriminate|]. intros ->.
    assert (H : strip_prefix d (d ++ [name]) = Some [name]) by (apply strip_prefix_spec; reflexivity).
    congruence.
Qed.

Lemma child_name_app d name : child_name d (d ++ [name]) = Some name.
Proof. apply child_name_spec. reflexivity. Qed.

Lemma child_name_prefix d q : q ∈ prefixes d -> child_name d q = None.
Proof.
  intros Hq. destruct (child_name d q) as [name|] eqn:E; [|reflexivity].
  apply child_name_spec in E. subst q. exfalso.
  assert (Hlen : forall p q : list string, q ∈ prefixes p -> (length q <= length p)%nat).
  { clear. induction p as [|s p IH]; intros q Hq; cbn in Hq.
    - apply list_elem_of_singleton in Hq. subst. cbn. lia.
    - apply elem_of_cons in Hq as [->|Hq]; [cbn; lia|].
      apply list_elem_of_fmap in Hq as (q' & -> & Hq'). cbn. specialize (IH _ Hq'). lia. }
  apply Hlen in Hq. rewrite length_app in Hq. cbn in Hq. lia.
Qed.

Lemma prefixes_self (p : list string) : p ∈ prefixes p.
Proof.
  induction p as [|s p IH]; cbn; [apply list_elem_of_singleton; reflexivity|].
  apply elem_of_cons. right. apply list_elem_of_fmap. eauto.
Qed.

Lemma omap_child_name_NoDup d (l : list (list string)) :
  NoDup l -> NoDup (omap (child_name d) l).
Proof.
  induction 1 as [|q l Hq Hl IH]; cbn; [constructor|].
  destruct (child_name d q) as [name|] eqn:E; [|exact IH].
  constructor; [|exact IH].
  intros Hin. apply list_elem_of_omap in Hin as (q' & Hq' & E').
  apply child_name_spec in E, E'. subst. contradiction.
Qed.

Lemma elem_of_omap_child_name d (l : list (list string)) name :
  name ∈ omap (child_name d) l <-> d ++ [name] ∈ l.
Proof.
  rewrite list_elem_of_omap. split.
  - intros (q & Hq & E). apply child_name_spec in E. subst. exact Hq.
  - intros Hq. exists (d ++ [name]). split; [exact Hq|apply child_name_app].
Qed.

(** Sorting forgets the order in which a directory was listed. *)
Lemma sort_Permutation (l1 l2 : list string) : l1 ≡ₚ l2 -> sort l1 = sort l2.
Proof.
  intros Hp. unfold sort. apply (Sorted_unique str_le).
  - apply Sorted_merge_sort; apply _.
  - apply Sorted_merge_sort; apply _.
  - rewrite !merge_sort_Permutation. exact Hp.
Qed.

(** Searching for one code unit. *)
Lemma includes_unit_cons u c s :
  includes (String c s) (String u EmptyString) =
    Ascii.eqb c u || includes s (String u EmptyString).
Proof.
  cbn [includes String.prefix]. destruct (ascii_dec u c) as [<-|Hne].
  - rewrite Ascii.eqb_refl. destruct s; reflexivity.
  - assert (E : Ascii.eqb c u = false) by (apply Ascii.eqb_neq; congruence).
    rewrite E. reflexivity.
Qed.

Lemma includes_unit_append u a b :
  includes (a +:+ b) (String u EmptyString) =
    includes a (String u EmptyString) || includes b (String u EmptyString).
Proof.
  induction a as [|c a IH]; [reflexivity|].
  rewrite append_cons, !includes_unit_cons, IH, orb_assoc. reflexivity.
Qed.

Lemma has_NUL_append a b : has_NUL (a +:+ b) = has_NUL a || has_NUL b.
Proof. apply includes_unit_append. Qed.

Lemma includes_slash_cons c s :
  includes (String c s) "/" = Ascii.eqb c "/" || includes s "/".
Proof.
  cbn [includes String.prefix]. destruct (ascii_dec "/" c) as [<-|Hne].
  - destruct s; reflexivity.
  - assert (E : Ascii.eqb c "/" = false) by (apply Ascii.eqb_neq; congruence).
    rewrite E. reflexivity.
Qed.

Lemma split_no_slash s : includes s "/" = false -> Path.split s = [s].
Proof.
  induction s as [|c s IH]; [reflexivity|].
  rewrite includes_slash_cons. intros Hs. apply orb_false_iff in Hs as [Hc Hs].
  cbn [Path.split]. rewrite Hc, (IH Hs). reflexivity.
Qed.

(** [path.join] appends a name without slash that is not empty, [.]
    or [..] as one segment. *)
Lemma join_entry base name :
  isEmpty name = false -> String.eqb name "." = false -> String.eqb name ".." = false ->
  includes name "/" = false ->
  Path.join base name = base ++ [name].
Proof.
  intros He Hd Hdd Hs.
  unfold Path.join. rewrite (split_no_slash _ Hs). cbn [fold_left].
  unfold Path.step. rewrite He, Hd, Hdd. reflexivity.
Qed.

Lemma join_segment base name :
  Path.segment name = true -> Path.join base name = base ++ [name].
Proof.
  unfold Path.segment. rewrite !andb_true_iff, !negb_true_iff.
  intros ((((He & Hd) & Hdd) & Hs) & _). apply join_entry; assumption.
Qed.

Lemma segment_no_NUL name : Path.segment name = true -> has_NUL name = false.
Proof.
  unfold Path.segment. rewrite !andb_true_iff, !negb_true_iff. tauto.
Qed.

End Paths.

(** ** The store on a well-kept file system *)

Section StoreFacts.
Import JS Fs FileStore Store.
Context {RT : Runtime}.

Lemma is_file_false fs q : is_file fs q = false <-> files fs !! q = None.
Proof.
  unfold is_file. rewrite bool_decide_eq_false, <- eq_None_not_Some. reflexivity.
Qed.

Lemma usable_spec fs :
  usable fs = true <-> forall q, q ∈ prefixes DATA_DIR -> files fs !! q = None.
Proof.
  unfold usable. rewrite forallb_forall. split.
  - intros Hall q Hq. apply is_file_false, negb_true_iff, Hall, list_elem_of_In, Hq.
  - intros Hall q Hq. apply negb_true_iff, is_file_false, Hall, list_elem_of_In, Hq.
Qed.

Lemma flat_spec fs :
  flat fs = true <->
  (forall name, DATA_DIR ++ [name] ∉ dirs fs) /\
  (forall name, is_Some (record fs name) -> Path.segment name = true).
Proof.
  unfold flat. rewrite andb_true_iff, !forallb_forall. split.
  - intros [Hd Hf]. split.
    + intros name Hin. specialize (Hd (DATA_DIR ++ [name])).
      rewrite child_name_app in Hd. 
      assert (false = true); [|discriminate].
      apply Hd, list_elem_of_In, elem_of_elements, Hin.
    + intros name Hsome. specialize (Hf (DATA_DIR ++ [name])).
      rewrite child_name_app in Hf. apply Hf, list_elem_of_In, elem_of_elements, elem_of_dom, Hsome.
  - intros [Hd Hf]. split.
    + intros q Hq. destruct (child_name DATA_DIR q) as [name|] eqn:E; [|reflexivity].
      apply child_name_spec in E. subst q. exfalso.
      apply (Hd name), elem_of_elements, list_elem_of_In, Hq.
    + intros q Hq. destruct (child_name DATA_DIR q) as [name|] eqn:E; [|reflexivity].
      apply child_name_spec in E. subst q.
      apply Hf. apply elem_of_dom, elem_of_elements, list_elem_of_In, Hq.
Qed.

Lemma ensureDir_made fs : usable fs = true -> ensureDir fs = (Ok (), made fs).
Proof.
  intros Hu. unfold ensureDir, mkdir_recursive.
  pose proof (proj1 (usable_spec fs) Hu) as Hp.
  assert (E1 : is_file fs DATA_DIR = false) by (apply is_file_false, Hp, prefixes_self).
  rewrite E1.
  assert (E2 : existsb (is_file fs) (prefixes DATA_DIR) = false).
  { apply not_true_iff_false. intros Hex. apply existsb_exists in Hex as (q & Hq & Hf).
    apply list_elem_of_In in Hq. apply Hp, is_file_false in Hq. congruence. }
  rewrite E2. reflexivity.
Qed.

Lemma record_made fs name : record (made fs) name = record fs name.
Proof. reflexivity. Qed.

Lemma made_dirs fs q : q ∈ dirs (made fs) <-> q ∈ dirs fs \/ q ∈ prefixes DATA_DIR.
Proof. unfold made. cbn. rewrite elem_of_union, elem_of_list_to_set. reflexivity. Qed.


Lemma made_is_dir fs : is_dir (made fs) DATA_DIR = true.
Proof.
  unfold is_dir. apply bool_decide_eq_true, made_dirs. right. apply prefixes_self.
Qed.

Lemma record_names_NoDup fs : NoDup (record_names fs).
Proof. apply omap_child_name_NoDup, NoDup_elements. Qed.

Lemma elem_of_record_names fs name : name ∈ record_names fs <-> is_Some (record fs name).
Proof.
  unfold record_names, record.
  rewrite elem_of_omap_child_name, elem_of_elements, elem_of_dom. reflexivity.
Qed.

(** Listing a flat storage directory gives the record names, in some
    order. *)
Lemma readdir_made fs :
  flat fs = true ->
  exists entries,
    readdir DATA_DIR (made fs) = (Ok entries, made fs) /\ entries ≡ₚ record_names fs.
Proof.
  intros Hf. unfold readdir. rewrite made_is_dir. eexists. split; [reflexivity|].
  apply NoDup_Permutation.
  - apply omap_child_name_NoDup, NoDup_elements.
  - apply record_names_NoDup.
  - intros name. rewrite elem_of_record_names, elem_of_omap_child_name, elem_of_elements.
    rewrite elem_of_union, elem_of_dom. fold (record (made fs) name).
    rewrite record_made. split; [|auto]. intros [Hs|Hd]; [exact Hs|].
    exfalso. apply flat_spec in Hf as [Hdirs _].
    apply made_dirs in Hd as [Hd|Hd]; [exact (Hdirs name Hd)|].
    apply child_name_prefix in Hd. rewrite child_name_app in Hd. discriminate.
Qed.

Lemma filter_Permutation {A} (f : A -> bool) (l1 l2 : list A) :
  l1 ≡ₚ l2 -> List.filter f l1 ≡ₚ List.filter f l2.
Proof.
  induction 1 as [|x l1 l2 _ IH|x y l|l1 l2 l3 _ IH1 _ IH2]; cbn.
  - reflexivity.
  - destruct (f x); [constructor|]; exact IH.
  - destruct (f x), (f y); try reflexivity. constructor.
  - etransitivity; eassumption.
Qed.

Lemma elem_of_slice0 {A} (l : list A) k x : x ∈ slice0 l k -> x ∈ l.
Proof.
  unfold slice0. destruct (k <? 0); intros Hx;
    apply elem_of_take in Hx as (i & Hi & _); eapply list_elem_of_lookup_2; eauto.
Qed.

Lemma elem_of_latest_first names name : name ∈ latest_first names <-> name ∈ names.
Proof.
  unfold latest_first, sort. rewrite elem_of_reverse, merge_sort_Permutation. reflexivity.
Qed.

(** The loop over the selected names: every record is read, the
    parsable ones are appended in order. *)
Lemma read_items_spec fs selected items :
  (forall name, name ∈ selected -> Path.segment name = true /\ is_Some (record fs name)) ->
  read_items selected items fs = (Ok (items ++ omap (document fs) selected), fs).
Proof.
  revert items. induction selected as [|name rest IH]; intros items Hall.
  - cbn. rewrite app_nil_r. reflexivity.
  - destruct (Hall name) as [Hseg [text Htext]]; [apply elem_of_cons; auto|].
    cbn [read_items]. unfold mbind, M_bind, readFile.
    rewrite (join_segment _ _ Hseg). fold (record fs name). rewrite Htext.
    rewrite IH by (intros n Hn; apply Hall, elem_of_cons; auto).
    cbn [omap list_omap]. unfold document at 2. rewrite Htext. cbn [mbind option_bind].
    destruct (JSON_parse text); [rewrite <- app_assoc|]; reflexivity.
Qed.

(** What [getAllConversations] computes on a well-kept file system. *)
Lemma getAllConversations_spec fs limit :
  well_kept fs = true ->
  getAllConversations limit fs =
    (Ok (omap (document fs)
           (slice0 (latest_first (List.filter is_json_name (record_names fs)))
              (default 100 limit))),
     made fs).
Proof.
  intros Hw. pose proof Hw as Hw'. unfold well_kept in Hw'.
  apply andb_true_iff in Hw' as [Hu Hf].
  unfold getAllConversations. unfold mbind at 1, M_bind. rewrite (ensureDir_made _ Hu).
  destruct (readdir_made fs Hf) as (entries & Hrd & Hperm).
  unfold mbind at 1, M_bind. rewrite Hrd.
  rewrite (sort_Permutation _ _ (filter_Permutation (fun f => endsWith f ".json") _ _ Hperm)).
  rewrite read_items_spec; [reflexivity|].
  intros name Hin. apply elem_of_slice0 in Hin.
  apply (proj1 (elem_of_latest_first _ _)) in Hin.
  apply list_elem_of_In, filter_In in Hin as [Hin _]. apply list_elem_of_In in Hin.
  apply elem_of_record_names in Hin. rewrite record_made. split; [|exact Hin].
  apply flat_spec in Hf as [_ Hn]. apply Hn, Hin.
Qed.

(** What [getConversationById] computes on a well-kept file system. *)
Lemma getConversationById_spec fs id :
  well_kept fs = true ->
  getConversationById id fs =
    (Ok match latest_first
                (List.filter (fun f => includes f id && is_json_name f) (record_names fs)) with
        | [] => JNull
        | first :: _ => default JNull (document fs first)
        end,
     made fs).
Proof.
  intros Hw. pose proof Hw as Hw'. unfold well_kept in Hw'.
  apply andb_true_iff in Hw' as [Hu Hf].
  unfold getConversationById. unfold mbind at 1, M_bind. rewrite (ensureDir_made _ Hu).
  destruct (readdir_made fs Hf) as (entries & Hrd & Hperm).
  unfold mbind at 1, M_bind. rewrite Hrd.
  rewrite (sort_Permutation _ _
             (filter_Permutation (fun f => includes f id && endsWith f ".json") _ _ Hperm)).
  fold (latest_first (List.filter (fun f => includes f id && endsWith f ".json")
                        (record_names fs))).
  destruct (latest_first _) as [|first rest] eqn:E; [reflexivity|].
  assert (Hin : first ∈ record_names fs).
  { assert (H1 : first ∈ first :: rest) by (apply elem_of_cons; auto).
    rewrite <- E in H1. apply (proj1 (elem_of_latest_first _ _)) in H1.
    apply list_elem_of_In, filter_In in H1 as [H1 _]. apply list_elem_of_In, H1. }
  apply elem_of_record_names in Hin. destruct Hin as [text Htext].
  apply flat_spec in Hf as [_ Hn].
  unfold mbind, M_bind, readFile.
  rewrite (join_segment _ _ (Hn first (ex_intro _ text Htext))).
  change (files (made fs) !! (DATA_DIR ++ [first])) with (record fs first).
  unfold document. rewrite Htext. cbn [mbind option_bind].
  destruct (JSON_parse text); reflexivity.
Qed.

Lemma DATA_DIR_path : existsb has_NUL DATA_DIR = false.
Proof.
  unfold DATA_DIR. rewrite existsb_app. apply orb_false_iff. split; [|reflexivity].
  pose proof process_cwd_path as H. rewrite forallb_forall in H.
  apply not_true_iff_false. intros Hex. apply existsb_exists in Hex as (s & Hs & Hn).
  apply H in Hs. rewrite Hn in Hs. discriminate.
Qed.

Lemma saved_named fs payload Date_now name :
  getFilename payload Date_now = Some name ->
  saved fs payload Date_now =
    {| files := <[DATA_DIR ++ [name] := JSON_stringify payload]> (files fs);
       dirs := dirs fs ∪ list_to_set (prefixes DATA_DIR) |}.
Proof. intros H. unfold saved. rewrite H. reflexivity. Qed.

(** What [saveConversationPayload] does when the derived name is one
    path segment. *)
Lemma saveConversationPayload_spec fs payload Date_now name :
  well_kept fs = true ->
  getFilename payload Date_now = Some name ->
  Path.segment name = true ->
  saveConversationPayload payload Date_now fs = (Ok (), saved fs payload Date_now).
Proof.
  intros Hw Hname Hseg. pose proof Hw as Hw'. unfold well_kept in Hw'.
  apply andb_true_iff in Hw' as [Hu Hf].
  unfold saveConversationPayload. unfold mbind, M_bind. rewrite (ensureDir_made _ Hu).
  rewrite (saved_named _ _ _ _ Hname), Hname.
  rewrite (join_segment _ _ Hseg). unfold writeFile.
  assert (E0 : existsb has_NUL (DATA_DIR ++ [name]) = false).
  { rewrite existsb_app, DATA_DIR_path. cbn [existsb orb].
    rewrite (segment_no_NUL _ Hseg). reflexivity. }
  rewrite E0.
  assert (E1 : is_dir (made fs) (DATA_DIR ++ [name]) = false).
  { unfold is_dir. apply bool_decide_eq_false. intros Hd.
    apply flat_spec in Hf as [Hdirs _].
    apply made_dirs in Hd as [Hd|Hd]; [exact (Hdirs _ Hd)|].
    apply child_name_prefix in Hd. rewrite child_name_app in Hd. discriminate. }
  rewrite E1, removelast_last, made_is_dir.
  assert (E2 : bool_decide (DATA_DIR ++ [name] = []) = false).
  { apply bool_decide_eq_false. intros E. apply (f_equal (@length _)) in E.
    rewrite length_app in E. cbn in E. lia. }
  rewrite E2. reflexivity.
Qed.

Lemma record_saved fs payload Date_now saved_name name :
  getFilename payload Date_now = Some saved_name ->
  record (saved fs payload Date_now) name =
    if decide (name = saved_name) then Some (JSON_stringify payload)
    else record fs name.
Proof.
  intros Hname. rewrite (saved_named _ _ _ _ Hname).
  unfold record. cbn [files]. destruct (decide _) as [->|Hne].
  - apply lookup_insert_eq.
  - apply lookup_insert_ne. intros E. apply app_inv_head in E. congruence.
Qed.



End StoreFacts.

(** ** Claims on the readers of the store *)

(** C8. On every storage state, also one that holds a record whose
    text is not valid JSON, listLatest succeeds, and its result is
    exactly the parsed documents of the selected records (the first
    [limit] names ending in [.json], newest name first), in that
    order, every record that does not parse being left out. *)
Theorem getAllConversations_skips_unparsable {RT : JS.Runtime}
    (fs : Fs.t) (limit : option Z) :
  Store.well_kept fs = true ->
  let selected :=
    JS.slice0 (Store.latest_first (List.filter Store.is_json_name (Store.record_names fs)))
      (default 100 limit) in
  FileStore.getAllConversations limit fs = (Fs.Ok (omap (Store.document fs) selected),
                                            Store.made fs) /\
  (forall name, name ∈ selected -> Store.document fs name = None ->
     forall v, v ∈ omap (Store.document fs) selected ->
     exists other, other ∈ selected /\ other <> name /\ Store.document fs other = Some v).
Proof.
  intros Hw selected. split.
  - apply getAllConversations_spec, Hw.
  - intros name Hname Hbad v Hv.
    apply list_elem_of_omap in Hv as (other & Hother & Hdoc).
    exists other. split; [exact Hother|]. split; [|exact Hdoc].
    intros ->. congruence.
Qed.

Lemma getAllConversations_skips_unparsable_witness :
  fst (FileStore.getAllConversations (RT := Reference.runtime) None Samples.corrupt_fs) =
    Fs.Ok [JS.JObj []].
Proof.
  destruct (getAllConversations_skips_unparsable (RT := Reference.runtime)
              Samples.corrupt_fs None) as [Hrun _].
  - vm_compute. reflexivity.
  - rewrite Hrun. cbn [fst]. f_equal.
Defined.

Section Matching.
Import JS Store.

Lemma latest_first_nil names : latest_first names = [] <-> names = [].
Proof.
  unfold latest_first, sort. split.
  - intros E. apply (f_equal reverse) in E. rewrite reverse_involutive in E. cbn in E.
    apply Permutation_nil_r. rewrite <- E. symmetry. apply merge_sort_Permutation.
  - intros ->. reflexivity.
Qed.

Lemma filter_nil {A} (f : A -> bool) (l : list A) :
  List.filter f l = [] <-> forall x, x ∈ l -> f x = false.
Proof.
  induction l as [|y l IH]; cbn.
  - split; [|reflexivity]. intros _ x Hx. apply elem_of_nil in Hx. contradiction.
  - destruct (f y) eqn:E.
    + split; [discriminate|]. intros H. specialize (H y (list_elem_of_here _ _)). congruence.
    + rewrite IH. split.
      * intros H x Hx. apply elem_of_cons in Hx as [->|Hx]; auto.
      * intros H x Hx. apply H, elem_of_cons. auto.
Qed.

End Matching.

(** C6 (as amended). getById enumerates the stored record names, keeps
    those that end in [.json] and contain the id as a substring, sorts
    them descending and returns the parsed content of the first match.
    It returns the not-found signal if no such name contains the id,
    and also when the text of the first match does not parse or is the
    document null. The retrieval handler answers
    404 {"error":"Not found"} exactly when that result is falsy, and
    200 with the document otherwise. *)
Theorem getConversationById_not_found_iff {RT : JS.Runtime} (fs : Fs.t) (id : string) :
  Store.well_kept fs = true ->
  let matched :=
    Store.latest_first
      (List.filter (fun f => JS.includes f id && Store.is_json_name f)
         (Store.record_names fs)) in
  exists item,
    FileStore.getConversationById id fs = (Fs.Ok item, Store.made fs) /\
    (forall first rest, matched = first :: rest ->
       item = default JS.JNull (Store.document fs first)) /\
    (item = JS.JNull <->
       (forall name, is_Some (Store.record fs name) -> Store.is_json_name name = true ->
          JS.includes name id = false) \/
       (exists first rest, matched = first :: rest /\
          (Store.document fs first = None \/ Store.document fs first = Some JS.JNull))) /\
    Routes.conversationRouter_get id fs =
      (Fs.Ok (if JS.falsy item
              then {| Routes.status := 404;
                      Routes.body := JS.JObj [("error", JS.JStr "Not found")] |}
              else {| Routes.status := 200; Routes.body := item |}),
       Store.made fs).
Proof.
  intros Hw matched. pose proof (getConversationById_spec fs id Hw) as Hrun.
  fold matched in Hrun.
  assert (Hnone : matched = [] <->
            forall name, is_Some (Store.record fs name) -> Store.is_json_name name = true ->
              JS.includes name id = false).
  { unfold matched. rewrite latest_first_nil, filter_nil. split.
    - intros H name Hrec Hjson. apply elem_of_record_names in Hrec.
      specialize (H name Hrec). rewrite Hjson, andb_true_r in H. exact H.
    - intros H name Hin. apply elem_of_record_names in Hin.
      destruct (Store.is_json_name name) eqn:Hjson; [|apply andb_false_r].
      rewrite (H name Hin Hjson). reflexivity. }
  eexists. split; [exact Hrun|]. split; [|split].
  - intros first rest E. rewrite E. reflexivity.
  - destruct matched as [|first rest] eqn:E.
    + split; [|reflexivity]. intros _. left. apply Hnone. reflexivity.
    + split.
      * intros Hnull. right. exists first, rest. split; [reflexivity|].
        destruct (Store.document fs first) as [v|]; [|auto]. cbn in Hnull. subst. auto.
      * intros [Hno|(first' & rest' & E' & Hdoc)].
        -- apply Hnone in Hno. discriminate.
        -- injection E' as <- <-. destruct Hdoc as [-> | ->]; reflexivity.
  - unfold Routes.conversationRouter_get, mbind, Fs.M_bind. rewrite Hrun.
    destruct (JS.falsy _); reflexivity.
Qed.

Lemma getConversationById_not_found_iff_witness :
  exists item,
    FileStore.getConversationById (RT := Reference.runtime) "x_b" Samples.corrupt_fs =
      (Fs.Ok item, Store.made (RT := Reference.runtime) Samples.corrupt_fs).
Proof.
  destruct (getConversationById_not_found_iff (RT := Reference.runtime)
              Samples.corrupt_fs "x_b") as (item & Hrun & _).
  - vm_compute. reflexivity.
  - exists item. exact Hrun.
Defined.

(** C6, counterexample. The only record whose name contains [x_a] holds
    text that is not JSON: a stored record name contains the id, and
    getById signals not-found and the handler answers 404. *)
Lemma getConversationById_not_found_despite_match :
  is_Some (Store.record (RT := Reference.runtime) Samples.corrupt_fs "200_x_a.json") /\
  JS.includes "200_x_a.json" "x_a" = true /\
  fst (FileStore.getConversationById (RT := Reference.runtime) "x_a" Samples.corrupt_fs) =
    Fs.Ok JS.JNull /\
  fst (Routes.conversationRouter_get (RT := Reference.runtime) "x_a" Samples.corrupt_fs) =
    Fs.Ok {| Routes.status := 404; Routes.body := JS.JObj [("error", JS.JStr "Not found")] |}.
Proof.
  split; [vm_compute; eauto|]. split; [reflexivity|].
  split; vm_compute; reflexivity.
Qed.

(** ** File names and the order of the listing *)

Section Naming.
Import JS Fs FileStore Store Numeral.
Context {RT : Runtime}.











Lemma latest_first_sorted names : StronglySorted (flip str_le) (latest_first names).
Proof.
  unfold latest_first, sort. apply Sorted_StronglySorted; [apply _|].
  apply Sorted_reverse, Sorted_merge_sort; apply _.
Qed.






End Naming.



(** The three payloads of the specification's test, run. *)
Example getAllConversations_100_300_200 :
  fst (FileStore.getAllConversations (RT := Reference.runtime) (Some 3)
         (snd (Store.save_each (RT := Reference.runtime) Samples.three_events
                 Samples.empty_fs))) =
  Fs.Ok [Samples.transcription 300 "b"; Samples.transcription 200 "c";
         Samples.transcription 100 "a"].
Proof. vm_compute. reflexivity. Qed.


Section Search.
Import JS Fs FileStore Store.

Context {RT : Runtime}.





#[local] Instance flip_str_le_antisym : AntiSymm (=) (flip str_le).
Proof. intros x y H1 H2. apply (anti_symm str_le); assumption. Qed.


End Search.

Section Milliseconds.
Import JS Numeral.





End Milliseconds.

Section TwoRecords.
Import JS Fs FileStore Store.
Context {RT : Runtime}.



End TwoRecords.







(** ** Claims on the ingestion handler *)

Lemma save_then_reply {RT : JS.Runtime} (fs : Fs.t) payload Date_now name
    (r : Routes.response) :
  Store.well_kept fs = true ->
  FileStore.getFilename payload Date_now = Some name ->
  Path.segment name = true ->
  (FileStore.saveConversationPayload payload Date_now ≫= fun _ => mret r) fs =
    (Fs.Ok r, Store.saved fs payload Date_now).
Proof.
  intros Hw Hname Hseg. unfold mbind, Fs.M_bind.
  rewrite (saveConversationPayload_spec _ _ _ _ Hw Hname Hseg). reflexivity.
Qed.



(** C4. The claim has every verified request whose body parses
    persisted and answered 200 or 202, the 202 for every type other
    than the two known ones. Here the secret is configured, the
    signature verifies and the body is the JSON document
    {"type": "a/b"}, of a type that is not one of the two known ones;
    the handler responds 400 and nothing is persisted: the type goes
    into the file name as it is, the name points into a directory that
    does not exist, and the error of the write is answered as an
    invalid payload. *)
Theorem webhookRouter_post_rejects_slash_type :
  Signature.verifySignature (RT := Reference.runtime)
    {| Signature.rawBody :=
         list_byte_of_string (Reference.stringify (JS.JObj [("type", JS.JStr "a/b")]));
       Signature.signature := Samples.slash_type_signature;
       Signature.timestamp := "1700000000";
       Signature.secret := "s3cret";
       Signature.maxSkewSeconds := None |} 1700000000000 = true /\
  Reference.parse
    (Reference.utf8_text
       (list_byte_of_string (Reference.stringify (JS.JObj [("type", JS.JStr "a/b")])))) =
    Some (JS.JObj [("type", JS.JStr "a/b")]) /\
  Store.known_type (JS.JObj [("type", JS.JStr "a/b")]) = false /\
  FileStore.getFilename (JS.JObj [("type", JS.JStr "a/b")]) 1700000000000 =
    Some "1700000000000_a/b_no_conversation.json" /\
  fst (Routes.webhookRouter_post (RT := Reference.runtime) (Some "s3cret")
         (Samples.post (JS.JObj [("type", JS.JStr "a/b")]) Samples.slash_type_signature)
         1700000000000 Samples.empty_fs) =
    Fs.Ok (Store.reply 400 [("error", JS.JStr "Invalid payload")]) /\
  Fs.files (snd (Routes.webhookRouter_post (RT := Reference.runtime) (Some "s3cret")
                   (Samples.post (JS.JObj [("type", JS.JStr "a/b")])
                      Samples.slash_type_signature)
                   1700000000000 Samples.empty_fs)) = ∅.
Proof.
  repeat split; vm_compute; reflexivity.
Qed.

(** ** The derived file name *)

Section FileNames.
Import JS Fs FileStore Store.

(** The sanitized id is made of the safe class only. *)
Lemma sanitize_safe s : all_safe (sanitize s).
Proof.
  induction s as [|c s IH]; [exact I|].
  cbn [sanitize all_safe]. split; [|exact IH].
  destruct (safe_unit c) eqn:E; [exact E|reflexivity].
Qed.

Lemma sanitize_length s : String.length (sanitize s) = String.length s.
Proof. induction s as [|c s IH]; [reflexivity|]. cbn. rewrite IH. reflexivity. Qed.

Lemma includes_slash_append a b :
  includes (a +:+ b) "/" = includes a "/" || includes b "/".
Proof.
  induction a as [|c a IH]; [reflexivity|].
  rewrite append_cons, !includes_slash_cons, IH, orb_assoc. reflexivity.
Qed.

Lemma safe_no_slash s : all_safe s -> includes s "/" = false.
Proof.
  induction s as [|c s IH]; [reflexivity|].
  intros [Hc Hs]. rewrite includes_slash_cons, (IH Hs), orb_false_r.
  apply Ascii.eqb_neq. intros ->. discriminate.
Qed.

Lemma safe_no_NUL s : all_safe s -> has_NUL s = false.
Proof.
  induction s as [|c s IH]; [reflexivity|].
  intros [Hc Hs]. unfold has_NUL in *. rewrite includes_unit_cons, (IH Hs), orb_false_r.
  apply Ascii.eqb_neq. intros ->. discriminate.
Qed.

(** The three texts a derived name is made of. *)
Lemma getFilename_parts payload Date_now name :
  getFilename payload Date_now = Some name ->
  exists ts ty conv,
    ToString (nullish_or (opt_prop "event_timestamp" (Some payload)) (JNum Date_now))
      = Some ts /\
    ToString (nullish_or (opt_prop "type" (Some payload)) (JStr "unknown")) = Some ty /\
    name = ts +:+ "_" +:+ ty +:+ "_" +:+ sanitize conv +:+ ".json".
Proof.
  unfold getFilename.
  destruct (ToString _) as [conv|]; [|discriminate].
  destruct (ToString _) as [ts|]; [|discriminate].
  destruct (ToString _) as [ty|]; [|discriminate].
  intros [= <-]. exists ts, ty, conv. auto.
Qed.

(** A payload whose timestamp and type are written without a slash
    gets a name that [path.join] appends as one segment, whatever its
    conversation id. *)
Lemma getFilename_entry payload Date_now name :
  getFilename payload Date_now = Some name ->
  (forall ts,
     ToString (nullish_or (opt_prop "event_timestamp" (Some payload)) (JNum Date_now))
       = Some ts -> includes ts "/" = false) ->
  (forall ty,
     ToString (nullish_or (opt_prop "type" (Some payload)) (JStr "unknown")) = Some ty ->
     includes ty "/" = false) ->
  isEmpty name = false /\ String.eqb name "." = false /\ String.eqb name ".." = false /\
  includes name "/" = false.
Proof.
  intros Hname Hts Hty.
  destruct (getFilename_parts _ _ _ Hname) as (ts & ty & conv & Ets & Ety & ->).
  specialize (Hts ts Ets). specialize (Hty ty Ety).
  set (safe := sanitize conv).
  assert (Hlen : (7 <= String.length (ts +:+ "_" +:+ ty +:+ "_" +:+ safe +:+ ".json"))%nat).
  { rewrite !string_length_append. cbn [String.length]. lia. }
  assert (Hslash : includes (ts +:+ "_" +:+ ty +:+ "_" +:+ safe +:+ ".json") "/" = false).
  { rewrite !includes_slash_append, Hts, Hty, (safe_no_slash safe (sanitize_safe _)).
    reflexivity. }
  rewrite Hslash.
  destruct (ts +:+ "_" +:+ ty +:+ "_" +:+ safe +:+ ".json")%string as [|c1 [|c2 [|c3 r]]];
    cbn in Hlen; try lia.
  rewrite (proj2 (String.eqb_neq _ ".")) by (intros E; inversion E).
  rewrite (proj2 (String.eqb_neq _ "..")) by (intros E; inversion E).
  auto.
Qed.

(** When the two texts hold no NUL either, the name is one path
    segment. *)
Lemma getFilename_segment payload Date_now name :
  getFilename payload Date_now = Some name ->
  (forall ts,
     ToString (nullish_or (opt_prop "event_timestamp" (Some payload)) (JNum Date_now))
       = Some ts -> includes ts "/" = false /\ has_NUL ts = false) ->
  (forall ty,
     ToString (nullish_or (opt_prop "type" (Some payload)) (JStr "unknown")) = Some ty ->
     includes ty "/" = false /\ has_NUL ty = false) ->
  Path.segment name = true.
Proof.
  intros Hname Hts Hty.
  destruct (getFilename_entry payload Date_now name Hname) as (He & Hd & Hdd & Hs).
  { intros ts E. apply Hts, E. }
  { intros ty E. apply Hty, E. }
  unfold Path.segment. rewrite He, Hd, Hdd, Hs. cbn [negb andb].
  destruct (getFilename_parts _ _ _ Hname) as (ts & ty & conv & Ets & Ety & ->).
  rewrite !has_NUL_append, (proj2 (Hts ts Ets)), (proj2 (Hty ty Ety)),
    (safe_no_NUL _ (sanitize_safe conv)). reflexivity.
Qed.

End FileNames.

(** With such a payload the file is written directly in the storage
    directory. *)
Lemma saveConversationPayload_stays_inside {RT : JS.Runtime}
    (fs : Fs.t) (payload : JS.json) (Date_now : Z) (name : string) :
  Store.well_kept fs = true ->
  FileStore.getFilename payload Date_now = Some name ->
  (forall ts,
     JS.ToString (JS.nullish_or (JS.opt_prop "event_timestamp" (Some payload))
                    (JS.JNum Date_now)) = Some ts ->
     JS.includes ts "/" = false /\ JS.has_NUL ts = false) ->
  (forall ty,
     JS.ToString (JS.nullish_or (JS.opt_prop "type" (Some payload)) (JS.JStr "unknown"))
       = Some ty ->
     JS.includes ty "/" = false /\ JS.has_NUL ty = false) ->
  FileStore.saveConversationPayload payload Date_now fs =
    (Fs.Ok (), Store.saved fs payload Date_now).
Proof.
  intros Hw Hname Hts Hty. eapply saveConversationPayload_spec; [exact Hw|exact Hname|].
  eapply getFilename_segment; eassumption.
Qed.

(** C7, the failing input. The conversation id [../../etc] is
    sanitized, but the type is copied into the file name as it is: with
    the type [x/../../../pwned] the verified request is answered 202, no
    record appears in the storage directory, and the document is
    written two levels above it. *)
Theorem saveConversationPayload_escapes_by_type :
  FileStore.getFilename Samples.traversal 0 = Some "1_x/../../../pwned_______etc.json" /\
  FileStore.DATA_DIR (RT := Reference.runtime) = ["srv"; "app"; "backend"; "data"] /\
  Path.join (FileStore.DATA_DIR (RT := Reference.runtime))
    "1_x/../../../pwned_______etc.json" = ["srv"; "app"; "pwned_______etc.json"] /\
  fst (Routes.webhookRouter_post (RT := Reference.runtime) (Some "s3cret")
         (Samples.post Samples.traversal Samples.traversal_signature)
         1700000000000 Samples.empty_fs) =
    Fs.Ok (Store.reply 202 [("status", JS.JStr "ignored");
                            ("reason", JS.JStr "unknown_type")]) /\
  Fs.files (snd (Routes.webhookRouter_post (RT := Reference.runtime) (Some "s3cret")
                   (Samples.post Samples.traversal Samples.traversal_signature)
                   1700000000000 Samples.empty_fs))
    !! ["srv"; "app"; "pwned_______etc.json"] = Some (Reference.stringify Samples.traversal) /\
  Store.record_names (RT := Reference.runtime)
    (snd (Routes.webhookRouter_post (RT := Reference.runtime) (Some "s3cret")
            (Samples.post Samples.traversal Samples.traversal_signature)
            1700000000000 Samples.empty_fs)) = [].
Proof.
  split; [vm_compute; reflexivity|]. split; [reflexivity|].
  split; [vm_compute; reflexivity|]. split; [vm_compute; reflexivity|].
  split; vm_compute; reflexivity.
Qed.

(** ** The verifier as a whole *)

Section Hexadecimal.
Import Buffer Hex.

Lemma unhex_lower_unit c : unhex (lower_unit c) = unhex c.
Proof.
  destruct c as [[] [] [] [] [] [] [] []]; vm_compute; reflexivity.
Qed.

Lemma from_hex_lower s : from_hex (lower s) = from_hex s.
Proof.
  revert s. fix IH 1. intros [|c1 [|c2 s]]; [reflexivity..|].
  cbn [lower from_hex]. rewrite !unhex_lower_unit, IH. reflexivity.
Qed.

Lemma from_hex_to_hex_append l rest : from_hex (to_hex l +:+ rest) = l ++ from_hex rest.
Proof.
  induction l as [|b l IH]; [reflexivity|].
  cbn [to_hex]. rewrite !append_cons, from_hex_pair, IH. reflexivity.
Qed.

Lemma lower_to_hex l : lower (to_hex l) = to_hex l.
Proof.
  induction l as [|b l IH]; [reflexivity|].
  cbn [to_hex lower]. rewrite IH. f_equal; [|f_equal].
  - destruct b; vm_compute; reflexivity.
  - destruct b; vm_compute; reflexivity.
Qed.

Lemma lower_length s : String.length (lower s) = String.length s.
Proof. induction s as [|c s IH]; [reflexivity|]. cbn. rewrite IH. reflexivity. Qed.

(** Text that folds to the hex form of [l] decodes to [l], whatever
    undecodable text follows it. *)
Lemma from_hex_folded l : forall h rest,
  lower h = to_hex l -> from_hex rest = [] -> from_hex (h +:+ rest) = l.
Proof.
  induction l as [|b l IH]; intros h rest Hh Hrest.
  - destruct h; [|discriminate]. exact Hrest.
  - destruct h as [|c1 [|c2 h]]; try discriminate.
    cbn [lower to_hex] in Hh. injection Hh as H1 H2 H3.
    rewrite !append_cons.
    pose proof (from_hex_pair b EmptyString) as Hp.
    cbn [from_hex] in Hp |- *.
    rewrite <- H1, <- H2, !unhex_lower_unit in Hp.
    rewrite (IH h rest H3 Hrest).
    destruct (unhex c1); [|discriminate]. destruct (unhex c2); [|discriminate].
    injection Hp as ->. reflexivity.
Qed.

End Hexadecimal.

Section Gates.
Import JS Signature.
Context {RT : Runtime}.

(** A call that returns true has passed the three gates. *)
Lemma verifySignature_gates args Date_now :
  verifySignature args Date_now = true ->
  signature args <> EmptyString /\ timestamp args <> EmptyString /\
  secret args <> EmptyString /\
  exists ts, Number (timestamp args) = Finite ts /\
    skewed (Date_now / 1000) ts (default 300 (maxSkewSeconds args)) = false.
Proof.
  unfold verifySignature, verifySignature_run.
  destruct (isEmpty (signature args)) eqn:E1; [discriminate|].
  destruct (isEmpty (timestamp args)) eqn:E2; [discriminate|].
  destruct (isEmpty (secret args)) eqn:E3; [discriminate|].
  cbn [orb]. apply isEmpty_false in E1, E2, E3.
  destruct (Number (timestamp args)) as [| |ts]; [discriminate..|].
  destruct (skewed _ ts _) eqn:E4; [discriminate|].
  intros _. repeat (split; [assumption|]). exists ts. split; [reflexivity|exact E4].
Qed.

Lemma provided_digest_prefixed h : provided_digest ("sha256=" +:+ h) = h.
Proof.
  unfold provided_digest, startsWith. rewrite prefix_append. apply drop_append.
Qed.

Lemma skewed_wider now ts m m' :
  m <= m' -> skewed now ts m = false -> skewed now ts m' = false.
Proof.
  intros Hm. rewrite !skewed_false. intros H.
  eapply Qle_trans; [exact H|]. rewrite <- Zle_Qle. exact Hm.
Qed.

Lemma skewed_negative now ts m : m < 0 -> skewed now ts m = true.
Proof.
  intros Hm. apply skewed_spec.
  eapply Qlt_le_trans; [|apply Qabs_nonneg].
  change 0%Q with (inject_Z 0). rewrite <- Zlt_Qlt. exact Hm.
Qed.

End Gates.

(** X1. A call of the verifier returns true exactly when the
    signature, the timestamp and the secret are all non-empty strings,
    the timestamp converts to a finite number that differs from the
    clock, in whole seconds, by at most [maxSkewSeconds] (300 when the
    caller gives none), and the hex decoding of the signature without
    its optional prefix is the HMAC-SHA256 of the timestamp, a dot and
    the raw body under the secret. *)
Theorem verifySignature_true_iff {RT : JS.Runtime}
    (args : Signature.VerifyArgs) (Date_now : Z) :
  Signature.verifySignature args Date_now = true <->
  Signature.signature args <> EmptyString /\
  Signature.timestamp args <> EmptyString /\
  Signature.secret args <> EmptyString /\
  exists ts,
    JS.Number (Signature.timestamp args) = JS.Finite ts /\
    (Qabs (inject_Z (Date_now / 1000) - ts)
       <= inject_Z (default 300%Z (Signature.maxSkewSeconds args)))%Q /\
    Buffer.from_hex (Signature.provided_digest (Signature.signature args)) =
      Crypto.hmac_sha256 (Buffer.from_utf8 (Signature.secret args))
        (Buffer.from_utf8 (Signature.timestamp args) ++ "."%byte :: Signature.rawBody args).
Proof.
  rewrite <- signed_bytes_spec. split.
  - intros H. destruct (verifySignature_gates _ _ H) as (H1 & H2 & H3 & ts & Hn & Hw).
    repeat (split; [assumption|]). exists ts. split; [assumption|].
    split; [apply skewed_false, Hw|].
    apply (verifySignature_in_window args Date_now ts); assumption.
  - intros (H1 & H2 & H3 & ts & Hn & Hw & Hd).
    apply (verifySignature_in_window args Date_now ts); try assumption.
    apply skewed_false, Hw.
Qed.

Lemma verifySignature_true_iff_witness :
  Signature.verifySignature (RT := Reference.runtime)
    {| Signature.rawBody := Buffer.from_utf8 "{}";
       Signature.signature := Samples.digest_hex;
       Signature.timestamp := "1700000000";
       Signature.secret := "s3cret";
       Signature.maxSkewSeconds := Some 5 |} 1700000004999 = true.
Proof.
  apply (proj2 (verifySignature_true_iff (RT := Reference.runtime) _ _)).
  cbn [Signature.signature Signature.timestamp Signature.secret Signature.rawBody
       Signature.maxSkewSeconds].
  split; [discriminate|]. split; [discriminate|]. split; [discriminate|].
  exists (inject_Z 1700000000). split; [reflexivity|].
  split; [vm_compute; discriminate|vm_compute; reflexivity].
Defined.

(** X2. The prefix of the signature header is optional: a signature
    text that does not itself start with [sha256=] gets the same
    verdict with the prefix and without it. *)
Theorem verifySignature_prefix_optional {RT : JS.Runtime}
    (B : Buffer.t) (T S h : string) (maxSkew : option Z) (Date_now : Z) :
  JS.startsWith h "sha256=" = false ->
  let args sig := {| Signature.rawBody := B; Signature.signature := sig;
                     Signature.timestamp := T; Signature.secret := S;
                     Signature.maxSkewSeconds := maxSkew |} in
  Signature.verifySignature (args ("sha256=" +:+ h)) Date_now =
    Signature.verifySignature (args h) Date_now.
Proof.
  intros Hh args.
  assert (Hp : Signature.provided_digest h = h)
    by (unfold Signature.provided_digest; rewrite Hh; reflexivity).
  unfold Signature.verifySignature, Signature.verifySignature_run.
  cbn [Signature.signature Signature.timestamp Signature.secret Signature.rawBody
       Signature.maxSkewSeconds args].
  rewrite provided_digest_prefixed, Hp.
  change (JS.isEmpty ("sha256=" +:+ h)) with false. cbn [orb].
  destruct h as [|c h].
  - cbn [JS.isEmpty orb]. destruct (JS.isEmpty T || JS.isEmpty S); [reflexivity|].
    destruct (JS.Number T) as [| |ts]; [reflexivity..|].
    destruct (Signature.skewed _ ts _); [reflexivity|].
    rewrite from_hex_to_hex.
    change (Buffer.from_hex EmptyString) with (@nil byte).
    rewrite expected_digest_length. reflexivity.
  - reflexivity.
Qed.

Lemma verifySignature_prefix_optional_witness :
  Signature.verifySignature (RT := Reference.runtime)
    (Samples.signed_args ("sha256=" +:+ Samples.digest_hex)) 1700000000000 =
  Signature.verifySignature (RT := Reference.runtime)
    (Samples.signed_args Samples.digest_hex) 1700000000000.
Proof.
  apply (verifySignature_prefix_optional (RT := Reference.runtime)
           (Buffer.from_utf8 "{}") "1700000000" "s3cret" Samples.digest_hex None
           1700000000000).
  reflexivity.
Defined.

(** X3. The window only widens with [maxSkewSeconds]: a request that
    is accepted under one bound is accepted under every larger one,
    and under a negative bound nothing is accepted. *)
Theorem verifySignature_window_monotone {RT : JS.Runtime}
    (B : Buffer.t) (sig T S : string) (m m' : Z) (Date_now : Z) :
  m <= m' ->
  let args k := {| Signature.rawBody := B; Signature.signature := sig;
                   Signature.timestamp := T; Signature.secret := S;
                   Signature.maxSkewSeconds := Some k |} in
  (Signature.verifySignature (args m) Date_now = true ->
   Signature.verifySignature (args m') Date_now = true) /\
  (m < 0 -> Signature.verifySignature (args m) Date_now = false).
Proof.
  intros Hm args. split.
  - intros H. destruct (verifySignature_gates _ _ H) as (H1 & H2 & H3 & ts & Hn & Hw).
    cbn [Signature.signature Signature.timestamp Signature.secret
         Signature.maxSkewSeconds args default] in H1, H2, H3, Hn, Hw.
    apply (verifySignature_in_window (args m) Date_now ts) in H; try assumption.
    apply (verifySignature_in_window (args m') Date_now ts); try assumption.
    cbn [Signature.maxSkewSeconds args default]. exact (skewed_wider _ _ _ _ Hm Hw).
  - intros Hneg. destruct (Signature.verifySignature (args m) Date_now) eqn:E; [|reflexivity].
    destruct (verifySignature_gates _ _ E) as (_ & _ & _ & ts & _ & Hw).
    cbn [Signature.maxSkewSeconds args default] in Hw.
    rewrite (skewed_negative _ _ _ Hneg) in Hw. discriminate.
Qed.

Lemma verifySignature_window_monotone_witness :
  (Signature.verifySignature (RT := Reference.runtime)
     {| Signature.rawBody := Buffer.from_utf8 "{}";
        Signature.signature := Samples.digest_hex;
        Signature.timestamp := "1700000000";
        Signature.secret := "s3cret";
        Signature.maxSkewSeconds := Some 10 |} 1700000007000 = true ->
   Signature.verifySignature (RT := Reference.runtime)
     {| Signature.rawBody := Buffer.from_utf8 "{}";
        Signature.signature := Samples.digest_hex;
        Signature.timestamp := "1700000000";
        Signature.secret := "s3cret";
        Signature.maxSkewSeconds := Some 60 |} 1700000007000 = true) /\
  (10 < 0 ->
   Signature.verifySignature (RT := Reference.runtime)
     {| Signature.rawBody := Buffer.from_utf8 "{}";
        Signature.signature := Samples.digest_hex;
        Signature.timestamp := "1700000000";
        Signature.secret := "s3cret";
        Signature.maxSkewSeconds := Some 10 |} 1700000007000 = false).
Proof.
  apply (verifySignature_window_monotone (RT := Reference.runtime)
           (Buffer.from_utf8 "{}") Samples.digest_hex "1700000000" "s3cret" 10 60
           1700000007000).
  lia.
Defined.

(** X4. The hex decoding is lenient. Inside the window, a signature
    whose text after the optional prefix is the digest's 64 hex digits
    with the letters in either case, followed by any text that does
    not itself start with two hex digits, is accepted. *)
Theorem verifySignature_lenient_hex {RT : JS.Runtime}
    (B : Buffer.t) (T S sig h rest : string) (ts : Q) (maxSkew : option Z) (Date_now : Z) :
  T <> EmptyString ->
  S <> EmptyString ->
  JS.Number T = JS.Finite ts ->
  (Qabs (inject_Z (Date_now / 1000) - ts) <= inject_Z (default 300%Z maxSkew))%Q ->
  Signature.provided_digest sig = h +:+ rest ->
  Hex.lower h =
    Buffer.to_hex (Crypto.hmac_sha256 (Buffer.from_utf8 S)
                     (Buffer.from_utf8 T ++ "."%byte :: B)) ->
  Buffer.from_hex rest = [] ->
  Signature.verifySignature
    {| Signature.rawBody := B; Signature.signature := sig;
       Signature.timestamp := T; Signature.secret := S;
       Signature.maxSkewSeconds := maxSkew |} Date_now = true.
Proof.
  intros HT HS Hn Hw Hp Hh Hrest.
  apply (verifySignature_in_window _ Date_now ts);
    cbn [Signature.signature Signature.timestamp Signature.secret Signature.rawBody
         Signature.maxSkewSeconds]; try assumption.
  - intros ->. change (Signature.provided_digest EmptyString) with EmptyString in Hp.
    destruct h; [|discriminate]. cbn [Hex.lower] in Hh.
    apply (f_equal String.length) in Hh. revert Hh.
    pose proof (hmac_sha256_length (Buffer.from_utf8 S)
                  (Buffer.from_utf8 T ++ "."%byte :: B)) as Hl.
    destruct (Crypto.hmac_sha256 _ _); [discriminate Hl|]. discriminate.
  - apply skewed_false, Hw.
  - rewrite Hp. unfold Signature.expected_digest.
    cbn [Signature.secret Signature.timestamp Signature.rawBody].
    rewrite signed_bytes_spec. apply from_hex_folded; assumption.
Qed.

Lemma verifySignature_lenient_hex_witness :
  Signature.verifySignature (RT := Reference.runtime)
    {| Signature.rawBody := Buffer.from_utf8 "{}";
       Signature.signature :=
         "sha256=97926816E98FBB41CCB1673225FF29A2F35369099990E1B1561651E7BD097EBF, v2";
       Signature.timestamp := "1700000000";
       Signature.secret := "s3cret";
       Signature.maxSkewSeconds := None |} 1700000000000 = true.
Proof.
  apply (verifySignature_lenient_hex (RT := Reference.runtime)
           (Buffer.from_utf8 "{}") "1700000000" "s3cret" _
           "97926816E98FBB41CCB1673225FF29A2F35369099990E1B1561651E7BD097EBF" ", v2"
           (inject_Z 1700000000) None 1700000000000).
  - discriminate.
  - discriminate.
  - reflexivity.
  - vm_compute. discriminate.
  - reflexivity.
  - vm_compute. reflexivity.
  - reflexivity.
Defined.

(** ** The store on any file system *)

Section Frame.
Import JS Fs FileStore Store Numeral.
Context {RT : Runtime}.

Lemma ensureDir_cases fs :
  (usable fs = true /\ ensureDir fs = (Ok (), made fs)) \/
  (usable fs = false /\ exists e, ensureDir fs = (Throw e, fs)).
Proof.
  destruct (usable fs) eqn:Hu; [left; split; [reflexivity|apply ensureDir_made, Hu]|].
  right. split; [reflexivity|]. unfold ensureDir, mkdir_recursive.
  destruct (is_file fs DATA_DIR); [eauto|].
  destruct (existsb (is_file fs) (prefixes DATA_DIR)) eqn:E; [eauto|].
  exfalso. apply not_true_iff_false in Hu. apply Hu. unfold usable.
  apply forallb_forall. intros q Hq. apply negb_true_iff.
  destruct (is_file fs q) eqn:Eq; [|reflexivity].
  assert (existsb (is_file fs) (prefixes DATA_DIR) = true)
    by (apply existsb_exists; eauto).
  congruence.
Qed.

Lemma writeFile_cases p text fs :
  writeFile p text fs = (Ok (), {| files := <[p := text]> (files fs); dirs := dirs fs |}) \/
  exists e, writeFile p text fs = (Throw e, fs).
Proof.
  unfold writeFile. destruct (existsb has_NUL p); [eauto|].
  destruct (is_dir fs p); [eauto|].
  destruct (is_dir fs (removelast p) && negb (bool_decide (p = []))); eauto.
Qed.

(** The two ways a save can end. *)
Lemma saveConversationPayload_cases fs payload Date_now :
  (usable fs = true /\
   exists name,
     getFilename payload Date_now = Some name /\
     saveConversationPayload payload Date_now fs =
       (Ok (), {| files := <[Path.join DATA_DIR name := JSON_stringify payload]> (files fs);
                  dirs := dirs (made fs) |})) \/
  (exists e fs1, saveConversationPayload payload Date_now fs = (Throw e, fs1) /\
     (fs1 = fs \/ fs1 = made fs)).
Proof.
  unfold saveConversationPayload, mbind, M_bind.
  destruct (ensureDir_cases fs) as [[Hu E]|[_ [e E]]]; rewrite E; [|right; eauto].
  destruct (getFilename payload Date_now) as [name|]; [|right; unfold throw; eauto].
  destruct (writeFile_cases (Path.join DATA_DIR name) (JSON_stringify payload) (made fs))
    as [W|[e W]]; rewrite W; [left; split; [exact Hu|eauto]|right; eauto].
Qed.

Lemma readdir_state d fs : snd (readdir d fs) = fs.
Proof. unfold readdir. destruct (is_dir fs d); reflexivity. Qed.

Lemma read_items_state selected : forall items fs, snd (read_items selected items fs) = fs.
Proof.
  induction selected as [|name rest IH]; intros items fs; [reflexivity|].
  cbn [read_items]. unfold mbind, M_bind, readFile.
  destruct (files fs !! Path.join DATA_DIR name); [apply IH|reflexivity].
Qed.

Lemma read_items_length selected : forall items fs out fs',
  read_items selected items fs = (Ok out, fs') ->
  (length out <= length items + length selected)%nat.
Proof.
  induction selected as [|name rest IH]; intros items fs out fs' H.
  - cbn in H. injection H as <- _. lia.
  - cbn [read_items] in H. unfold mbind, M_bind, readFile in H.
    destruct (files fs !! Path.join DATA_DIR name) as [text|]; [|discriminate].
    apply IH in H. cbn [length].
    destruct (JSON_parse text); [rewrite length_app in H; cbn in H|]; lia.
Qed.

Lemma slice0_length {A} (l : list A) k : 0 <= k -> (length (slice0 l k) <= Z.to_nat k)%nat.
Proof.
  intros Hk. unfold slice0. destruct (k <? 0) eqn:E; [lia|].
  rewrite length_firstn. lia.
Qed.

(** A listing never holds more items than names were selected. *)
Lemma getAllConversations_length fs limit items fs' :
  getAllConversations limit fs = (Ok items, fs') ->
  0 <= default 100 limit ->
  (length items <= Z.to_nat (default 100%Z limit))%nat.
Proof.
  unfold getAllConversations. unfold mbind at 1, M_bind.
  destruct (ensureDir_cases fs) as [[_ E]|[_ [e E]]]; rewrite E; [|discriminate].
  unfold mbind at 1, M_bind.
  destruct (readdir DATA_DIR (made fs)) as [[entries|e] fs2]; [|discriminate].
  intros H Hk. apply read_items_length in H. cbn [length] in H.
  pose proof (slice0_length
    (reverse (sort (List.filter (fun f => endsWith f ".json") entries))) _ Hk).
  lia.
Qed.

Lemma getAllConversations_files fs limit :
  files (snd (getAllConversations limit fs)) = files fs.
Proof.
  unfold getAllConversations. unfold mbind at 1, M_bind.
  destruct (ensureDir_cases fs) as [[_ E]|[_ [e E]]]; rewrite E; [|reflexivity].
  unfold mbind at 1, M_bind.
  pose proof (readdir_state DATA_DIR (made fs)) as Hr.
  destruct (readdir DATA_DIR (made fs)) as [[entries|e] fs2]; cbn [snd] in Hr; subst fs2;
    [|reflexivity].
  rewrite read_items_state. reflexivity.
Qed.

Lemma getConversationById_files fs id :
  files (snd (getConversationById id fs)) = files fs.
Proof.
  unfold getConversationById. unfold mbind at 1, M_bind.
  destruct (ensureDir_cases fs) as [[_ E]|[_ [e E]]]; rewrite E; [|reflexivity].
  unfold mbind at 1, M_bind.
  pose proof (readdir_state DATA_DIR (made fs)) as Hr.
  destruct (readdir DATA_DIR (made fs)) as [[entries|e] fs2]; cbn [snd] in Hr; subst fs2;
    [|reflexivity].
  destruct (reverse _) as [|first rest]; [reflexivity|].
  unfold mbind, M_bind, readFile.
  destruct (files (made fs) !! Path.join DATA_DIR first); reflexivity.
Qed.

(** The newest name heads the order of the readers. *)
Lemma latest_first_greatest l x :
  x ∈ l -> (forall y, y ∈ l -> str_le y x) -> exists rest, latest_first l = x :: rest.
Proof.
  intros Hx Hmax. pose proof (latest_first_sorted l) as Hs.
  destruct (latest_first l) as [|h rest] eqn:E.
  - apply (proj1 (latest_first_nil l)) in E. subst l. apply elem_of_nil in Hx. destruct Hx.
  - exists rest. f_equal.
    assert (Hh : h ∈ l) by (apply elem_of_latest_first; rewrite E; apply elem_of_cons; auto).
    assert (Hx' : x ∈ h :: rest) by (rewrite <- E; apply elem_of_latest_first, Hx).
    apply elem_of_cons in Hx' as [->|Hx']; [reflexivity|].
    inversion Hs as [|? ? _ Hall]; subst.
    rewrite Forall_forall in Hall. specialize (Hall x Hx'). unfold flip in Hall.
    apply (anti_symm str_le); [apply Hmax, Hh|exact Hall].
Qed.

Lemma elem_of_filter_names (f : string -> bool) l x :
  x ∈ List.filter f l <-> x ∈ l /\ f x = true.
Proof. rewrite !list_elem_of_In. apply filter_In. Qed.



Lemma sanitize_fixes_safe s : all_safe s -> sanitize s = s.
Proof.
  induction s as [|c s IH]; [reflexivity|]. intros [Hc Hs].
  cbn [sanitize]. rewrite Hc, IH by assumption. reflexivity.
Qed.

(** Numerals hold neither a slash nor a NUL. *)
Lemma plain_append a b : plain a -> plain b -> plain (a +:+ b).
Proof.
  intros [Ha1 Ha2] [Hb1 Hb2]. split.
  - rewrite includes_slash_append, Ha1, Hb1. reflexivity.
  - rewrite has_NUL_append, Ha2, Hb2. reflexivity.
Qed.

Lemma plain_cons c s :
  Ascii.eqb c "/" = false -> Ascii.eqb c (ascii_of_N 0) = false -> plain s ->
  plain (String c s).
Proof.
  intros H1 H2 [Hs1 Hs2]. split.
  - rewrite includes_slash_cons, H1, Hs1. reflexivity.
  - unfold has_NUL in *. rewrite includes_unit_cons, H2, Hs2. reflexivity.
Qed.

Lemma digit_plain c s : Numeral.is_digit c -> plain s -> plain (String c s).
Proof.
  intros Hc. unfold Numeral.is_digit in Hc.
  apply plain_cons; apply Ascii.eqb_neq; intros ->; cbn in Hc; lia.
Qed.

Lemma digits_plain s : Numeral.all_digits s -> plain s.
Proof.
  induction s as [|c s IH]; [split; reflexivity|].
  intros [Hc Hs]. apply digit_plain; auto.
Qed.

Lemma zeros_plain n : plain (zeros n).
Proof.
  induction n as [|n IH]; [split; reflexivity|].
  cbn [zeros]. apply plain_cons; [reflexivity..|exact IH].
Qed.

Lemma decimal_Z_plain z : plain (decimal_Z z).
Proof.
  unfold decimal_Z. destruct (z <? 0).
  - apply plain_cons; [reflexivity..|]. apply digits_plain, decimal_digits.
  - apply digits_plain, decimal_digits.
Qed.

Lemma double_text_plain x : plain (double_text x).
Proof.
  unfold double_text.
  set (sn := shortest _ _ _ _).
  pose proof (decimal_digits (fst sn)) as Hd.
  destruct (snd sn <=? 21)%N.
  - apply plain_append; [apply digits_plain, Hd|apply zeros_plain].
  - destruct (decimal (fst sn)) as [|d [|c rest]]; [split; reflexivity| |].
    + destruct Hd as [Hd _]. apply digit_plain; [exact Hd|].
      apply plain_append; [split; reflexivity|apply digits_plain, decimal_digits].
    + destruct Hd as [Hd Hrest]. apply digit_plain; [exact Hd|].
      apply plain_append; [split; reflexivity|].
      apply plain_append; [apply digits_plain, Hrest|].
      apply plain_append; [split; reflexivity|apply digits_plain, decimal_digits].
Qed.

Lemma number_text_plain z : plain (number_text z).
Proof.
  unfold number_text. destruct (Z.abs z <=? 2 ^ 53); [apply decimal_Z_plain|].
  destruct (to_double _).
  - apply plain_append; [destruct (z <? 0); split; reflexivity|apply double_text_plain].
  - apply plain_append; destruct (z <? 0); split; reflexivity.
Qed.

End Frame.

(** X5. A save writes at most one file. When it returns, the payload
    has derived a file name and the files are those of before with
    the text of the payload put at [path.join(DATA_DIR, filename)];
    when it throws, no file has changed. Either way every other path
    keeps its content, no file is removed, and the only directories
    that can appear are [DATA_DIR] and its ancestors. *)
Theorem saveConversationPayload_one_file {RT : JS.Runtime}
    (fs : Fs.t) (payload : JS.json) (Date_now : Z) :
  let out := FileStore.saveConversationPayload payload Date_now fs in
  (fst out = Fs.Ok () ->
   exists name,
     FileStore.getFilename payload Date_now = Some name /\
     Fs.files (snd out) =
       <[Path.join FileStore.DATA_DIR name := JS.JSON_stringify payload]> (Fs.files fs)) /\
  (fst out <> Fs.Ok () -> Fs.files (snd out) = Fs.files fs) /\
  (forall q,
     (forall name, FileStore.getFilename payload Date_now = Some name ->
        q <> Path.join FileStore.DATA_DIR name) ->
     Fs.files (snd out) !! q = Fs.files fs !! q) /\
  (forall q, is_Some (Fs.files fs !! q) -> is_Some (Fs.files (snd out) !! q)) /\
  (forall q, q ∈ Fs.dirs (snd out) -> q ∈ Fs.dirs fs \/ q ∈ Fs.prefixes FileStore.DATA_DIR).
Proof.
  intros out.
  destruct (saveConversationPayload_cases fs payload Date_now)
    as [[_ (name & Hname & E)]|(e & fs1 & E & Hfs1)];
    subst out; rewrite E; cbn [fst snd Fs.files Fs.dirs].
  - split; [eauto|]. split; [congruence|].
    split; [intros q Hq; apply lookup_insert_ne; specialize (Hq name Hname); congruence|].
    split; [|intros q Hq; apply made_dirs, Hq].
    intros q Hq. destruct (decide (q = Path.join FileStore.DATA_DIR name)) as [->|Hne].
    + rewrite lookup_insert_eq. eauto.
    + rewrite lookup_insert_ne by congruence. exact Hq.
  - assert (Hf : Fs.files fs1 = Fs.files fs) by (destruct Hfs1; subst; reflexivity).
    rewrite Hf. split; [discriminate|]. split; [reflexivity|].
    split; [reflexivity|]. split; [auto|].
    intros q Hq. destruct Hfs1; subst; [auto|apply made_dirs, Hq].
Qed.

Lemma saveConversationPayload_one_file_witness :
  Fs.files
    (snd (FileStore.saveConversationPayload (RT := Reference.runtime)
            (Samples.transcription 1000 "abc123") 0 Samples.corrupt_fs))
    !! (Samples.data_dir ++ ["100_x_b.json"]) =
  Fs.files Samples.corrupt_fs !! (Samples.data_dir ++ ["100_x_b.json"]).
Proof.
  apply (proj1 (proj2 (proj2
    (saveConversationPayload_one_file (RT := Reference.runtime) Samples.corrupt_fs
       (Samples.transcription 1000 "abc123") 0)))).
  intros name Hname E. vm_compute in Hname. injection Hname as <-.
  vm_compute in E. discriminate.
Defined.

(** X6. Reading changes no file: after [getAllConversations] and
    after [getConversationById], and so after the two GET handlers,
    whether they return or throw, every file has the content it had
    before. *)
Theorem readers_change_no_file {RT : JS.Runtime}
    (fs : Fs.t) (limit : option Z) (id : string) :
  Fs.files (snd (FileStore.getAllConversations limit fs)) = Fs.files fs /\
  Fs.files (snd (FileStore.getConversationById id fs)) = Fs.files fs /\
  Fs.files (snd (Routes.conversationRouter_list fs)) = Fs.files fs /\
  Fs.files (snd (Routes.conversationRouter_get id fs)) = Fs.files fs.
Proof.
  split; [apply getAllConversations_files|].
  split; [apply getConversationById_files|]. split.
  - unfold Routes.conversationRouter_list, mbind, Fs.M_bind.
    pose proof (getAllConversations_files fs (Some 50)) as H.
    destruct (FileStore.getAllConversations (Some 50) fs) as [[items|e] fs1]; exact H.
  - unfold Routes.conversationRouter_get, mbind, Fs.M_bind.
    pose proof (getConversationById_files fs id) as H.
    destruct (FileStore.getConversationById id fs) as [[item|e] fs1]; [|exact H].
    destruct (JS.falsy item); exact H.
Qed.

(** X7. A listing holds at most [limit] items, 100 when the caller
    gives no limit, and none when the limit is 0; this holds for every
    content of the storage directory, also when some records do not
    parse. *)
Theorem getAllConversations_at_most_limit {RT : JS.Runtime}
    (fs : Fs.t) (limit : option Z) (items : list JS.json) :
  fst (FileStore.getAllConversations limit fs) = Fs.Ok items ->
  0 <= default 100 limit ->
  (length items <= Z.to_nat (default 100%Z limit))%nat.
Proof.
  intros H Hk.
  destruct (FileStore.getAllConversations limit fs) as [r fs1] eqn:E. cbn [fst] in H.
  subst r. exact (getAllConversations_length _ _ _ _ E Hk).
Qed.

Lemma getAllConversations_at_most_limit_witness :
  (length [JS.JObj []] <= Z.to_nat (default 100%Z (Some 2%Z)))%nat.
Proof.
  apply (getAllConversations_at_most_limit (RT := Reference.runtime)
           Samples.corrupt_fs (Some 2) [JS.JObj []]).
  - vm_compute. reflexivity.
  - cbn. lia.
Defined.



(** X9. When several records match an id, [getConversationById]
    returns the one whose file name is greatest in code-unit order,
    or null when that record does not parse. The match is on the file
    name as a whole, so a record of another conversation whose name
    contains the id can be the one returned. *)
Theorem getConversationById_greatest_match {RT : JS.Runtime}
    (fs : Fs.t) (id name : string) :
  Store.well_kept fs = true ->
  is_Some (Store.record fs name) ->
  Store.is_json_name name = true ->
  JS.includes name id = true ->
  (forall other, is_Some (Store.record fs other) -> Store.is_json_name other = true ->
     JS.includes other id = true -> JS.str_le other name) ->
  fst (FileStore.getConversationById id fs) =
    Fs.Ok (default JS.JNull (Store.document fs name)).
Proof.
  intros Hw Hrec Hj Hi Hmax. rewrite getConversationById_spec by assumption. cbn [fst].
  destruct (latest_first_greatest
    (List.filter (fun f => JS.includes f id && Store.is_json_name f) (Store.record_names fs))
    name) as [rest ->]; [| |reflexivity].
  - apply elem_of_filter_names. split; [apply elem_of_record_names, Hrec|].
    rewrite Hi, Hj. reflexivity.
  - intros y Hy. apply elem_of_filter_names in Hy as [Hy Hf].
    apply andb_true_iff in Hf as [Hyi Hyj]. apply elem_of_record_names in Hy.
    apply Hmax; assumption.
Qed.

Lemma getConversationById_greatest_match_witness :
  fst (FileStore.getConversationById (RT := Reference.runtime) "ab"
         (Store.saved (RT := Reference.runtime)
            (Store.saved (RT := Reference.runtime) Samples.empty_fs
               (Samples.transcription 100 "ab") 0)
            (Samples.transcription 200 "abc") 0)) =
  Fs.Ok (default JS.JNull
           (Store.document (RT := Reference.runtime)
              (Store.saved (RT := Reference.runtime)
                 (Store.saved (RT := Reference.runtime) Samples.empty_fs
                    (Samples.transcription 100 "ab") 0)
                 (Samples.transcription 200 "abc") 0)
              "200_post_call_transcription_abc.json")).
Proof.
  assert (N1 : FileStore.getFilename (Samples.transcription 100 "ab") 0 =
               Some "100_post_call_transcription_ab.json") by (vm_compute; reflexivity).
  assert (N2 : FileStore.getFilename (Samples.transcription 200 "abc") 0 =
               Some "200_post_call_transcription_abc.json") by (vm_compute; reflexivity).
  apply (getConversationById_greatest_match (RT := Reference.runtime)).
  - vm_compute. reflexivity.
  - rewrite (record_saved _ _ _ _ _ N2). vm_compute. eauto.
  - vm_compute. reflexivity.
  - vm_compute. reflexivity.
  - intros other Hrec _ _.
    rewrite (record_saved _ _ _ _ _ N2), (record_saved _ _ _ _ _ N1) in Hrec.
    destruct (decide (other = _)) as [->|_]; [vm_compute; reflexivity|].
    destruct (decide (other = _)) as [->|_]; [vm_compute; reflexivity|].
    destruct Hrec as [text Hrec]. vm_compute in Hrec. discriminate.
Defined.



(** X11. The file name keeps only the sanitized id: two payloads with
    the same type and event timestamp whose conversation ids have the
    same sanitized form get one file name, so the records of the two
    conversations share a file. *)
Theorem getFilename_sanitized_ids_collide
    (p p' : JS.json) (id id' : string) (Date_now : Z) :
  JS.opt_prop "type" (Some p) = JS.opt_prop "type" (Some p') ->
  JS.opt_prop "event_timestamp" (Some p) = JS.opt_prop "event_timestamp" (Some p') ->
  JS.opt_prop "conversation_id" (JS.opt_prop "data" (Some p)) = Some (JS.JStr id) ->
  JS.opt_prop "conversation_id" (JS.opt_prop "data" (Some p')) = Some (JS.JStr id') ->
  FileStore.sanitize id = FileStore.sanitize id' ->
  FileStore.getFilename p Date_now = FileStore.getFilename p' Date_now.
Proof.
  intros Ht Hts Hid Hid' Hs. unfold FileStore.getFilename.
  rewrite Ht, Hts, Hid, Hid'. cbn [JS.nullish_or JS.ToString]. rewrite Hs. reflexivity.
Qed.

Lemma getFilename_sanitized_ids_collide_witness :
  FileStore.getFilename (Samples.transcription 1000 "room.7") 0 =
  FileStore.getFilename (Samples.transcription 1000 "room/7") 0.
Proof.
  apply (getFilename_sanitized_ids_collide
           (Samples.transcription 1000 "room.7") (Samples.transcription 1000 "room/7")
           "room.7" "room/7" 0); reflexivity.
Defined.

(** X12. The conversation id cannot move a record out of the storage
    directory. Whatever the id is, when the texts of the type and of
    the timestamp hold no slash, the file written is an entry of
    [DATA_DIR] itself, and every path that is not such an entry keeps
    its content, on any file system. *)
Theorem saveConversationPayload_confined {RT : JS.Runtime}
    (fs : Fs.t) (payload : JS.json) (Date_now : Z) :
  (forall ts,
     JS.ToString (JS.nullish_or (JS.opt_prop "event_timestamp" (Some payload))
                    (JS.JNum Date_now)) = Some ts ->
     JS.includes ts "/" = false) ->
  (forall ty,
     JS.ToString (JS.nullish_or (JS.opt_prop "type" (Some payload)) (JS.JStr "unknown"))
       = Some ty ->
     JS.includes ty "/" = false) ->
  (forall name, FileStore.getFilename payload Date_now = Some name ->
     Path.join FileStore.DATA_DIR name = FileStore.DATA_DIR ++ [name]) /\
  (forall q, Fs.child_name FileStore.DATA_DIR q = None ->
     Fs.files (snd (FileStore.saveConversationPayload payload Date_now fs)) !! q =
       Fs.files fs !! q).
Proof.
  intros Hts Hty.
  assert (Hjoin : forall name, FileStore.getFilename payload Date_now = Some name ->
            Path.join FileStore.DATA_DIR name = FileStore.DATA_DIR ++ [name]).
  { intros name Hname.
    destruct (getFilename_entry payload Date_now name Hname Hts Hty) as (He & Hd & Hdd & Hs).
    apply join_entry; assumption. }
  split; [exact Hjoin|]. intros q Hq.
  destruct (saveConversationPayload_cases fs payload Date_now)
    as [[_ (name & Hname & E)]|(e & fs1 & E & Hfs1)];
    rewrite E; cbn [snd Fs.files].
  - rewrite (Hjoin name Hname). apply lookup_insert_ne. intros <-.
    rewrite child_name_app in Hq. discriminate.
  - destruct Hfs1; subst; reflexivity.
Qed.

Lemma saveConversationPayload_confined_witness :
  (forall name,
     FileStore.getFilename (Samples.transcription 1000 "../../etc/passwd") 0 = Some name ->
     Path.join (FileStore.DATA_DIR (RT := Reference.runtime)) name =
       FileStore.DATA_DIR (RT := Reference.runtime) ++ [name]) /\
  (forall q, Fs.child_name (FileStore.DATA_DIR (RT := Reference.runtime)) q = None ->
     Fs.files (snd (FileStore.saveConversationPayload (RT := Reference.runtime)
                      (Samples.transcription 1000 "../../etc/passwd") 0
                      Samples.empty_fs)) !! q =
       Fs.files Samples.empty_fs !! q).
Proof.
  apply (saveConversationPayload_confined (RT := Reference.runtime) Samples.empty_fs
           (Samples.transcription 1000 "../../etc/passwd") 0).
  - intros ts E. vm_compute in E. injection E as <-. reflexivity.
  - intros ty E. vm_compute in E. injection E as <-. reflexivity.
Defined.

(** X13. Sanitizing maps every string to one of the same length over
    the class of letters, digits, underscore and hyphen, with no slash
    in it; it changes nothing in a string of that class and only such
    strings are left as they are, so sanitizing twice is sanitizing
    once. *)
Theorem sanitize_normal_form (s : string) :
  Store.all_safe (FileStore.sanitize s) /\
  String.length (FileStore.sanitize s) = String.length s /\
  JS.includes (FileStore.sanitize s) "/" = false /\
  (FileStore.sanitize s = s <-> Store.all_safe s) /\
  FileStore.sanitize (FileStore.sanitize s) = FileStore.sanitize s.
Proof.
  split; [apply sanitize_safe|]. split; [apply sanitize_length|].
  split; [apply safe_no_slash, sanitize_safe|]. split.
  - split; [intros <-; apply sanitize_safe|apply sanitize_fixes_safe].
  - apply sanitize_fixes_safe, sanitize_safe.
Qed.

(** ** The handlers on any file system *)

Section Handlers.
Import JS Fs FileStore Store.
Context {RT : Runtime}.

(** A save followed by a reply, on any file system. *)
Lemma save_then_reply_any fs payload Date_now (r : Routes.response) :
  (exists name,
     getFilename payload Date_now = Some name /\
     (saveConversationPayload payload Date_now ≫= fun _ => mret r) fs =
       (Ok r, {| files := <[Path.join DATA_DIR name := JSON_stringify payload]> (files fs);
                 dirs := dirs (made fs) |})) \/
  exists e fs1,
    (saveConversationPayload payload Date_now ≫= fun _ => mret r) fs = (Throw e, fs1) /\
    files fs1 = files fs.
Proof.
  unfold mbind, M_bind.
  destruct (saveConversationPayload_cases fs payload Date_now)
    as [[_ (name & Hname & E)]|(e & fs1 & E & Hfs1)];
    rewrite E; [left; eauto|right].
  exists e, fs1. split; [reflexivity|]. destruct Hfs1; subst; reflexivity.
Qed.

Lemma known_type_spec payload :
  known_type payload =
    negb (negb (Routes.is_type "post_call_transcription" (opt_prop "type" (Some payload)))
          && negb (Routes.is_type "post_call_audio" (opt_prop "type" (Some payload)))).
Proof.
  unfold known_type. destruct (Routes.is_type _ _), (Routes.is_type _ _); reflexivity.
Qed.

(** The name of a payload that is no object. *)
Lemma getFilename_non_object payload Date_now :
  (forall fields, payload <> JObj fields) ->
  getFilename payload Date_now =
    Some (number_text Date_now +:+ "_unknown_no_conversation.json").
Proof.
  intros Hno. destruct payload; try reflexivity. destruct (Hno fields). reflexivity.
Qed.

Lemma unknown_name_segment Date_now :
  Path.segment (number_text Date_now +:+ "_unknown_no_conversation.json") = true.
Proof.
  destruct (number_text_plain Date_now) as [Hs Hn].
  unfold Path.segment.
  rewrite includes_slash_append, has_NUL_append, Hs, Hn.
  assert (Hlen : (7 <= String.length (number_text Date_now
                                      +:+ "_unknown_no_conversation.json"))%nat).
  { rewrite string_length_append. cbn [String.length]. lia. }
  destruct (number_text Date_now +:+ "_unknown_no_conversation.json")%string
    as [|c1 [|c2 [|c3 r]]]; cbn in Hlen; try lia.
  rewrite (proj2 (String.eqb_neq _ ".")) by (intros E; inversion E).
  rewrite (proj2 (String.eqb_neq _ "..")) by (intros E; inversion E).
  reflexivity.
Qed.


End Handlers.

(** X14. The ingestion handler always answers: it never throws,
    whatever the request and the file system are, and its status is
    one of 200, 202, 400, 401 and 500. It removes no file. An answer
    other than 200 and 202 means that no file has changed; an answer
    200 or 202 means that the signature was verified, the body parsed,
    and the payload's text was written at
    [path.join(DATA_DIR, filename)] with no other file changed, 200
    being the answer exactly for the two known types. *)
Theorem webhookRouter_post_always_answers {RT : JS.Runtime}
    (WEBHOOK_SECRET : option string) (req : Routes.request) (Date_now : Z) (fs : Fs.t) :
  let secret := Routes.or_empty WEBHOOK_SECRET in
  let rawBody := default [] (Routes.req_body req) in
  let verified :=
    Signature.verifySignature
      {| Signature.rawBody := rawBody;
         Signature.signature := Routes.or_empty (Routes.ElevenLabs_Signature req);
         Signature.timestamp := Routes.or_empty (Routes.ElevenLabs_Timestamp req);
         Signature.secret := secret;
         Signature.maxSkewSeconds := None |} Date_now in
  let parsed := JS.JSON_parse (JS.toString_utf8 rawBody) in
  exists resp fs1,
    Routes.webhookRouter_post WEBHOOK_SECRET req Date_now fs = (Fs.Ok resp, fs1) /\
    Routes.status resp ∈ [200; 202; 400; 401; 500] /\
    (forall q, is_Some (Fs.files fs !! q) -> is_Some (Fs.files fs1 !! q)) /\
    (Routes.status resp <> 200 -> Routes.status resp <> 202 ->
     Fs.files fs1 = Fs.files fs) /\
    (Routes.status resp = 200 \/ Routes.status resp = 202 ->
     secret <> EmptyString /\ verified = true /\
     exists payload name,
       parsed = Some payload /\
       FileStore.getFilename payload Date_now = Some name /\
       (Routes.status resp = 200 <-> Store.known_type payload = true) /\
       Fs.files fs1 =
         <[Path.join FileStore.DATA_DIR name := JS.JSON_stringify payload]> (Fs.files fs)).
Proof.
  intros secret rawBody verified parsed.
  unfold Routes.webhookRouter_post, Fs.try_catch.
  fold secret rawBody. fold verified. fold parsed.
  destruct (JS.isEmpty secret) eqn:Es.
  { eexists _, fs. split; [reflexivity|]. cbn [Routes.status].
    split; [set_solver|]. split; [auto|]. split; [reflexivity|]. intros [?|?]; discriminate. }
  assert (Hs : secret <> EmptyString) by (apply isEmpty_false; exact Es).
  destruct verified eqn:Ev; cbn [negb].
  2: { eexists _, fs. split; [reflexivity|]. cbn [Routes.status].
       split; [set_solver|]. split; [auto|]. split; [reflexivity|].
       intros [?|?]; discriminate. }
  destruct parsed as [payload|] eqn:Ep.
  2: { eexists _, fs. split; [reflexivity|]. cbn [Routes.status].
       split; [set_solver|]. split; [auto|]. split; [reflexivity|].
       intros [?|?]; discriminate. }
  pose proof (known_type_spec payload) as Hk.
  destruct (negb (Routes.is_type "post_call_transcription" _)
            && negb (Routes.is_type "post_call_audio" _)); cbn [negb] in Hk.
  - destruct (save_then_reply_any fs payload Date_now
      {| Routes.status := 202;
         Routes.body := JS.JObj [("status", JS.JStr "ignored");
                                 ("reason", JS.JStr "unknown_type")] |})
      as [(name & Hname & E)|(e & fs1 & E & Hf)]; rewrite E.
    + eexists _, _. split; [reflexivity|]. cbn [Routes.status Fs.files].
      split; [set_solver|]. split.
      { intros q Hq. destruct (decide (q = Path.join FileStore.DATA_DIR name))
          as [->|Hne]; [rewrite lookup_insert_eq; eauto|].
        rewrite lookup_insert_ne by congruence. exact Hq. }
      split; [congruence|]. intros _. split; [exact Hs|]. split; [reflexivity|].
      exists payload, name. split; [reflexivity|]. split; [exact Hname|].
      split; [|reflexivity]. rewrite Hk. split; discriminate.
    + eexists _, fs1. split; [reflexivity|]. cbn [Routes.status]. rewrite Hf.
      split; [set_solver|]. split; [auto|]. split; [reflexivity|].
      intros [?|?]; discriminate.
  - destruct (save_then_reply_any fs payload Date_now
      {| Routes.status := 200; Routes.body := JS.JObj [("ok", JS.JBool true)] |})
      as [(name & Hname & E)|(e & fs1 & E & Hf)]; rewrite E.
    + eexists _, _. split; [reflexivity|]. cbn [Routes.status Fs.files].
      split; [set_solver|]. split.
      { intros q Hq. destruct (decide (q = Path.join FileStore.DATA_DIR name))
          as [->|Hne]; [rewrite lookup_insert_eq; eauto|].
        rewrite lookup_insert_ne by congruence. exact Hq. }
      split; [congruence|]. intros _. split; [exact Hs|]. split; [reflexivity|].
      exists payload, name. split; [reflexivity|]. split; [exact Hname|].
      split; [|reflexivity]. rewrite Hk. split; reflexivity.
    + eexists _, fs1. split; [reflexivity|]. cbn [Routes.status]. rewrite Hf.
      split; [set_solver|]. split; [auto|]. split; [reflexivity|].
      intros [?|?]; discriminate.
Qed.



(** X16. [GET /conversations] lists at most 50 conversations: when the
    handler answers, the status is 200 and the body is an object whose
    [items] array has at most 50 elements, whatever the storage
    directory holds. *)
Theorem conversationRouter_list_bounded {RT : JS.Runtime}
    (fs : Fs.t) (resp : Routes.response) :
  fst (Routes.conversationRouter_list fs) = Fs.Ok resp ->
  Routes.status resp = 200 /\
  exists items,
    Routes.body resp = JS.JObj [("items", JS.JArr items)] /\
    (length items <= 50)%nat /\
    fst (FileStore.getAllConversations (Some 50) fs) = Fs.Ok items.
Proof.
  unfold Routes.conversationRouter_list, mbind, Fs.M_bind.
  destruct (FileStore.getAllConversations (Some 50) fs) as [[items|e] fs1] eqn:E;
    [|discriminate].
  cbn [fst]. intros [= <-]. split; [reflexivity|]. exists items.
  split; [reflexivity|]. split; [|reflexivity].
  apply (getAllConversations_length _ _ _ _ E). cbn. lia.
Qed.

Lemma conversationRouter_list_bounded_witness :
  Routes.status {| Routes.status := 200;
                   Routes.body := JS.JObj [("items", JS.JArr [JS.JObj []])] |} = 200 /\
  exists items,
    Routes.body {| Routes.status := 200;
                   Routes.body := JS.JObj [("items", JS.JArr [JS.JObj []])] |} =
      JS.JObj [("items", JS.JArr items)] /\
    (length items <= 50)%nat /\
    fst (FileStore.getAllConversations (RT := Reference.runtime) (Some 50)
           Samples.corrupt_fs) = Fs.Ok items.
Proof.
  apply (conversationRouter_list_bounded (RT := Reference.runtime) Samples.corrupt_fs).
  vm_compute. reflexivity.
Defined.

(** X17. A verified body that is JSON but no object (null, a number,
    a string, a boolean or an array) is not rejected: on a well-kept
    store it is answered 202 and stored under
    [<Date.now()>_unknown_no_conversation.json]. *)
Theorem webhookRouter_post_non_object {RT : JS.Runtime}
    (WEBHOOK_SECRET : option string) (req : Routes.request) (Date_now : Z) (fs : Fs.t)
    (payload : JS.json) :
  Routes.or_empty WEBHOOK_SECRET <> EmptyString ->
  Signature.verifySignature
    {| Signature.rawBody := default [] (Routes.req_body req);
       Signature.signature := Routes.or_empty (Routes.ElevenLabs_Signature req);
       Signature.timestamp := Routes.or_empty (Routes.ElevenLabs_Timestamp req);
       Signature.secret := Routes.or_empty WEBHOOK_SECRET;
       Signature.maxSkewSeconds := None |} Date_now = true ->
  JS.JSON_parse (JS.toString_utf8 (default [] (Routes.req_body req))) = Some payload ->
  (forall fields, payload <> JS.JObj fields) ->
  Store.well_kept fs = true ->
  exists fs1,
    Routes.webhookRouter_post WEBHOOK_SECRET req Date_now fs =
      (Fs.Ok (Store.reply 202 [("status", JS.JStr "ignored");
                               ("reason", JS.JStr "unknown_type")]), fs1) /\
    Store.record fs1 (JS.number_text Date_now +:+ "_unknown_no_conversation.json") =
      Some (JS.JSON_stringify payload).
Proof.
  intros Hs Hv Hp Hno Hw.
  pose proof (getFilename_non_object payload Date_now Hno) as Hname.
  pose proof (unknown_name_segment Date_now) as Hseg.
  exists (Store.saved fs payload Date_now).
  unfold Routes.webhookRouter_post, Fs.try_catch.
  apply isEmpty_false in Hs. rewrite Hs, Hv, Hp. cbn [negb].
  assert (Hty : JS.opt_prop "type" (Some payload) = None).
  { destruct payload; try reflexivity. destruct (Hno fields). reflexivity. }
  rewrite Hty. cbn [Routes.is_type negb andb].
  rewrite (save_then_reply _ _ _ _ _ Hw Hname Hseg). split; [reflexivity|].
  rewrite (record_saved _ _ _ _ _ Hname), decide_True by reflexivity. reflexivity.
Qed.

Lemma webhookRouter_post_non_object_witness :
  exists fs1,
    Routes.webhookRouter_post (RT := Reference.runtime) (Some "s3cret")
      (Samples.post (JS.JArr [JS.JNum 1]) Samples.array_signature)
      1700000000000 Samples.empty_fs =
      (Fs.Ok (Store.reply 202 [("status", JS.JStr "ignored");
                               ("reason", JS.JStr "unknown_type")]), fs1) /\
    Store.record (RT := Reference.runtime) fs1
      (JS.number_text 1700000000000 +:+ "_unknown_no_conversation.json") =
      Some (JS.JSON_stringify (Runtime := Reference.runtime) (JS.JArr [JS.JNum 1])).
Proof.
  apply (webhookRouter_post_non_object (RT := Reference.runtime) (Some "s3cret")
           (Samples.post (JS.JArr [JS.JNum 1]) Samples.array_signature)
           1700000000000 Samples.empty_fs (JS.JArr [JS.JNum 1])).
  - discriminate.
  - vm_compute. reflexivity.
  - vm_compute. reflexivity.
  - discriminate.
  - vm_compute. reflexivity.
Defined.

(** ** The polling of the viewer *)

Section PollingFacts.
Import JS Viewer Polling.

Lemma step_keeps_cache st e :
  turns st = fst (dataCache st) /\ summary st = snd (dataCache st) ->
  turns (step st e) = fst (dataCache (step st e)) /\
  summary (step st e) = snd (dataCache (step st e)).
Proof.
  intros [Ht Hs]. destruct e as [|seen timestamp r]; [exact (conj Ht Hs)|].
  cbn [step]. unfold fetchLatest_settle.
  destruct (attempt r) as [x|[clean s]]; cbn [turns summary dataCache fst snd]; [|auto].
  destruct (maxRetries <=? seen)%nat; auto.
Qed.

Lemma fold_step_keeps_cache es : forall st,
  turns st = fst (dataCache st) /\ summary st = snd (dataCache st) ->
  turns (fold_left step es st) = fst (dataCache (fold_left step es st)) /\
  summary (fold_left step es st) = snd (dataCache (fold_left step es st)).
Proof.
  induction es as [|e es IH]; intros st H; [exact H|].
  cbn [fold_left]. apply IH, step_keeps_cache, H.
Qed.

Lemma fetched_attempt r x : fetched r = inl x -> attempt r = inl x.
Proof. intros H. unfold attempt. rewrite H. reflexivity. Qed.

Lemma pow_succ n : ((3 # 2) ^ Z.of_nat (S n) == (3 # 2) ^ Z.of_nat n * (3 # 2))%Q.
Proof.
  rewrite Nat2Z.inj_succ, <- Z.add_1_r, Qpower_plus by discriminate. reflexivity.
Qed.

Lemma pow_ge_1 n : (1 <= (3 # 2) ^ Z.of_nat n)%Q.
Proof.
  induction n as [|n IH]; [discriminate|]. rewrite pow_succ. lra.
Qed.

Lemma pow_mono n m : (n <= m)%nat -> ((3 # 2) ^ Z.of_nat n <= (3 # 2) ^ Z.of_nat m)%Q.
Proof.
  induction 1 as [|m _ IH]; [apply Qle_refl|].
  rewrite pow_succ. pose proof (pow_ge_1 m). lra.
Qed.

Lemma pow_3 : ((3 # 2) ^ Z.of_nat 3 == 27 # 8)%Q.
Proof. reflexivity. Qed.

Lemma skipped_is_turn item : skipped item -> is_turn item = false.
Proof.
  unfold is_turn. intros [Hf|Hr]; [rewrite Hf; reflexivity|].
  apply andb_false_iff. right. apply bool_decide_eq_false. intros [s Hs].
  destruct (prop "role" item) as [[]|]; try discriminate. exact (Hr _ eq_refl).
Qed.

Lemma shows_is_turn item t : shows item t -> is_turn item = true /\ to_turn item = Some t.
Proof.
  intros (fields & -> & Hr & Hm). unfold is_turn, to_turn. cbn [falsy negb prop andb].
  rewrite Hr, Hm. cbn [as_string ToString]. split.
  - apply bool_decide_eq_true. eauto.
  - destruct t. reflexivity.
Qed.

(** The filter and the map compute the displayed turns. *)
Lemma displayed_cleans items ts :
  displayed items ts -> map_turns (List.filter is_turn items) = Some ts.
Proof.
  induction 1 as [|item items ts Hskip _ IH|item t items ts Hshow _ IH];
    [reflexivity| |].
  - cbn [List.filter]. rewrite (skipped_is_turn _ Hskip). exact IH.
  - destruct (shows_is_turn _ _ Hshow) as [Hk Ht].
    cbn [List.filter]. rewrite Hk. cbn [map_turns]. rewrite Ht, IH. reflexivity.
Qed.

End PollingFacts.

(** X18. What the viewer shows is what it has cached. After any
    sequence of started and settled requests, in any order and with
    any outcomes, the turns and the summary on display are those of
    [dataCache]; so a request that fails (the fetch rejects, the
    status is not ok, the body does not parse, or a turn does not
    convert to text) changes neither of them, whether the retry limit
    has been reached or not. *)
Theorem App_displays_cache (es : list Polling.event) :
  let st := Polling.run es in
  Viewer.turns st = fst (Viewer.dataCache st) /\
  Viewer.summary st = snd (Viewer.dataCache st) /\
  (forall seen timestamp r x, Viewer.fetched r = inl x \/ Viewer.attempt r = inl x ->
     Viewer.turns (Viewer.fetchLatest_settle seen timestamp r st) = Viewer.turns st /\
     Viewer.summary (Viewer.fetchLatest_settle seen timestamp r st) = Viewer.summary st /\
     Viewer.dataCache (Viewer.fetchLatest_settle seen timestamp r st) =
       Viewer.dataCache st).
Proof.
  intros st.
  destruct (fold_step_keeps_cache es Viewer.initial (conj eq_refl eq_refl)) as [Ht Hs].
  fold (Polling.run es) in Ht, Hs. fold st in Ht, Hs.
  split; [exact Ht|]. split; [exact Hs|].
  intros seen timestamp r x Hx.
  assert (Ha : Viewer.attempt r = inl x)
    by (destruct Hx as [Hx|Hx]; [apply fetched_attempt, Hx|exact Hx]).
  unfold Viewer.fetchLatest_settle. rewrite Ha.
  cbn [Viewer.turns Viewer.summary Viewer.dataCache].
  destruct (Viewer.maxRetries <=? seen)%nat; auto.
Qed.

(** X19. The retry counter counts the failures since the last
    success. From any state a run of requests that all fail (the
    fetch rejects, the status is not ok, the body does not parse, or
    a turn of the transcript does not convert to text) adds one per
    settled request, started requests adding nothing; a request whose
    [try] block runs to its end sets the counter to 0. *)
Theorem App_retryCount_counts_failures (st : Viewer.state) (es : list Polling.event) :
  Forall Polling.failing es ->
  Viewer.retryCount (fold_left Polling.step es st) =
    (Viewer.retryCount st + length (List.filter Polling.settles es))%nat /\
  (forall seen timestamp r shown, Viewer.attempt r = inr shown ->
     Viewer.retryCount
       (Viewer.fetchLatest_settle seen timestamp r (fold_left Polling.step es st)) = 0%nat).
Proof.
  intros Hall. split.
  - revert st. induction Hall as [|e es He _ IH]; intros st; [cbn; lia|].
    cbn [fold_left List.filter]. rewrite IH.
    destruct e as [|seen timestamp r]; cbn [Polling.settles Polling.step length].
    + cbn. lia.
    + destruct He as [x Hx]. unfold Viewer.fetchLatest_settle. rewrite Hx.
      cbn [Viewer.retryCount]. lia.
  - intros seen timestamp r [clean s] Hd. unfold Viewer.fetchLatest_settle. rewrite Hd.
    reflexivity.
Qed.

Lemma App_retryCount_counts_failures_witness :
  Viewer.retryCount
    (fold_left Polling.step
       [Polling.Begin;
        Polling.Settle 0 1700000000000 (inl (Viewer.Error "Failed to fetch"));
        Polling.Begin;
        Polling.Settle 1 1700000015000
          (inr {| Viewer.ok := false; Viewer.status := 404;
                  Viewer.json_body := inr JS.JNull |});
        Polling.Settle 2 1700000030000
          (inr {| Viewer.ok := true; Viewer.status := 200;
                  Viewer.json_body :=
                    inr (JS.JObj
                           [("transcript",
                             JS.JArr [JS.JObj [("role", JS.JStr "agent");
                                               ("message",
                                                JS.JObj [("toString", JS.JNum 1)])]])]) |})]
       Viewer.initial) =
    (Viewer.retryCount Viewer.initial + 3)%nat.
Proof.
  refine (proj1 (App_retryCount_counts_failures Viewer.initial _ _)).
  repeat constructor; cbn; eauto.
Defined.

(** X20. The polling delay backs off and is capped. It is 10 seconds
    while no request has failed, 15 seconds after one failure, 22.5
    after two and 30 seconds from the third failure on; it never
    decreases as failures accumulate and always lies between 10 and 30
    seconds. *)
Theorem App_interval_schedule (n m : nat) :
  (Viewer.interval 0 == 10000)%Q /\
  (Viewer.interval 1 == 15000)%Q /\
  (Viewer.interval 2 == 22500)%Q /\
  ((3 <= n)%nat -> (Viewer.interval n == 30000)%Q) /\
  ((n <= m)%nat -> (Viewer.interval n <= Viewer.interval m)%Q) /\
  (10000 <= Viewer.interval n <= 30000)%Q.
Proof.
  assert (Hcap : forall k, (3 <= k)%nat -> (Viewer.interval k == 30000)%Q).
  { intros k Hk. unfold Viewer.interval.
    destruct (0 <? k)%nat eqn:E; [|apply Nat.ltb_ge in E; lia].
    apply Q.min_r. pose proof (pow_mono 3 k Hk) as H. rewrite pow_3 in H. lra. }
  assert (Hlo : forall k, (10000 <= Viewer.interval k)%Q).
  { intros k. unfold Viewer.interval. destruct (0 <? k)%nat; [|apply Qle_refl].
    apply Q.min_glb; [|discriminate]. pose proof (pow_ge_1 k). lra. }
  assert (Hhi : forall k, (Viewer.interval k <= 30000)%Q).
  { intros k. unfold Viewer.interval. destruct (0 <? k)%nat; [|discriminate].
    apply Q.le_min_r. }
  split; [reflexivity|]. split; [reflexivity|]. split; [reflexivity|].
  split; [apply Hcap|]. split; [|split; [apply Hlo|apply Hhi]].
  intros Hnm. unfold Viewer.interval at 1.
  destruct (0 <? n)%nat eqn:En; [|apply Hlo].
  apply Nat.ltb_lt in En. unfold Viewer.interval.
  destruct (0 <? m)%nat eqn:Em; [|apply Nat.ltb_ge in Em; lia].
  apply Q.min_le_compat_r. pose proof (pow_mono n m Hnm). lra.
Qed.

(** X21. What a settled request displays. When the body of an ok
    response has a [transcript] that is an array, the turns shown
    are, in their order, those of its elements that are objects with
    a string [role], each with its role and the text of its [message]
    (the empty string for an absent or null message), whatever other
    properties the elements carry; elements that are falsy or have no
    string role are left out. The summary is shown when it is a
    string, [loading] is false, the retry counter is 0 and
    [lastFetchTime] is the time of the request. A body whose
    [transcript] is absent, falsy or no array displays no turn. *)
Theorem App_shows_transcript
    (seen : nat) (timestamp : Z) (resp : Viewer.response) (st : Viewer.state)
    (data : JS.json) (items : list JS.json) (ts : list Viewer.Turn) :
  Viewer.ok resp = true ->
  Viewer.json_body resp = inr data ->
  (JS.opt_prop "transcript" (Some data) = Some (JS.JArr items) /\
   Polling.displayed items ts) \/
  ((forall elements, JS.opt_prop "transcript" (Some data) <> Some (JS.JArr elements)) /\
   ts = []) ->
  let st' := Viewer.fetchLatest_settle seen timestamp (inr resp) st in
  Viewer.turns st' = ts /\
  Viewer.summary st' = Viewer.as_string (JS.opt_prop "summary" (Some data)) /\
  Viewer.dataCache st' = (ts, Viewer.as_string (JS.opt_prop "summary" (Some data))) /\
  Viewer.loading st' = false /\
  Viewer.retryCount st' = 0%nat /\
  Viewer.lastFetchTime st' = timestamp.
Proof.
  intros Hok Hbody Htr st'.
  assert (Hclean : Viewer.cleanTurns data = Some ts).
  { unfold Viewer.cleanTurns, Viewer.transcript.
    destruct Htr as [[Htr Hd]|[Hno ->]].
    - rewrite Htr. cbn [JS.falsy]. apply displayed_cleans, Hd.
    - destruct (JS.opt_prop "transcript" (Some data)) as [v|]; [|reflexivity].
      destruct (JS.falsy v); [reflexivity|].
      destruct v; try reflexivity. destruct (Hno items0). reflexivity. }
  subst st'. unfold Viewer.fetchLatest_settle, Viewer.attempt, Viewer.fetched.
  rewrite Hok, Hbody. cbn [negb]. rewrite Hclean.
  cbn [Viewer.turns Viewer.summary Viewer.loading Viewer.lastFetchTime
       Viewer.retryCount Viewer.dataCache].
  repeat split.
Qed.

Lemma App_shows_transcript_witness :
  Viewer.turns
    (Viewer.fetchLatest_settle 0 1700000000000
       (inr {| Viewer.ok := true; Viewer.status := 200;
               Viewer.json_body :=
                 inr (JS.JObj
                        [("summary", JS.JStr "A short call");
                         ("transcript",
                          JS.JArr [JS.JObj [("time", JS.JNum 3);
                                            ("role", JS.JStr "agent");
                                            ("message", JS.JStr "Hello")];
                                   JS.JNull;
                                   JS.JObj [("role", JS.JNum 7)];
                                   JS.JObj [("role", JS.JStr "user");
                                            ("message", JS.JNum 42)];
                                   JS.JObj [("role", JS.JStr "user")]])]) |})
       Viewer.initial) =
  [{| Viewer.role := "agent"; Viewer.message := "Hello" |};
   {| Viewer.role := "user"; Viewer.message := "42" |};
   {| Viewer.role := "user"; Viewer.message := EmptyString |}].
Proof.
  refine (proj1 (App_shows_transcript 0 1700000000000 _ Viewer.initial _ _ _ _ _ _));
    [reflexivity|reflexivity|].
  left. split; [reflexivity|].
  apply Polling.displayed_turn; [eexists; repeat split; reflexivity|].
  apply Polling.displayed_skip; [left; reflexivity|].
  apply Polling.displayed_skip; [right; discriminate|].
  apply Polling.displayed_turn; [eexists; repeat split; reflexivity|].
  apply Polling.displayed_turn; [eexists; repeat split; reflexivity|].
  apply Polling.displayed_nil.
Defined.
